(** * get_acs_api_data.py: population under 5 by legislative district

    A shallow embedding of the script
    [analysis_child_care_stata_python/get_acs_api_data.py] and of what it
    calls in Python ([str.join], [posixpath], [csv]) and in pandas,
    followed by the properties of the pipeline it runs: fetch, shape,
    aggregate, check, write.

    The script is a straight line of module-level statements.  Each
    statement or call is a function below, named after it; they are
    chained in an error monad, since each may raise and an uncaught
    exception ends the script.  The file system is passed explicitly: the
    only statement that changes it is the last one.

    pandas is followed on the frames this script builds from a payload
    that is an array of arrays of strings: rows of one length, column
    labels that are distinct, cells that are strings or numbers of one
    numeric dtype.  Where pandas would go on with missing values (rows of
    different lengths) or with repeated labels, a function answers
    [Unmodelled] rather than a value or an exception.  The numeric dtype is
    a parameter ([Numeric]): every general statement holds for whatever
    [pd.to_numeric] accepts and however numbers are added and printed. *)

From Stdlib Require Import String Ascii List ZArith Bool Arith Lia.
From Stdlib Require Import DecimalString DecimalZ DecimalPos.
Import ListNotations.
Local Open Scope string_scope.
Local Open Scope list_scope.

(** ** Python: exceptions, and statements that may raise *)

Module Py.

Inductive exn : Type :=
| NameError (name : string)
| JSONDecodeError
| IndexError
| KeyError
| ValueError
| TypeError
| OSError.

(** The outcome of evaluating an expression.  [Unmodelled] marks the
    inputs on which pandas goes on with missing values (NaN) or with
    repeated column labels: this development does not follow it there and
    says so instead of guessing. *)
Inductive res (A : Type) : Type :=
| Ok (a : A)
| Raise (e : exn)
| Unmodelled.
Arguments Ok {A} a.
Arguments Raise {A} e.
Arguments Unmodelled {A}.

Definition bind {A B : Type} (m : res A) (k : A -> res B) : res B :=
  match m with
  | Ok a => k a
  | Raise e => Raise e
  | Unmodelled => Unmodelled
  end.

Fixpoint mapM {A B : Type} (f : A -> res B) (l : list A) : res (list B) :=
  match l with
  | [] => Ok []
  | x :: l' =>
      bind (f x) (fun y => bind (mapM f l') (fun ys => Ok (y :: ys)))
  end.

(** [sep.join(parts)] *)
Fixpoint join (sep : string) (parts : list string) : string :=
  match parts with
  | [] => EmptyString
  | [p] => p
  | p :: rest => (p ++ sep ++ join sep rest)%string
  end.

(** [str(i)] for an integer *)
Definition str_of_int (i : Z) : string := NilZero.string_of_int (Z.to_int i).

End Py.

Import Py.

Declare Scope py_scope.
Delimit Scope py_scope with py.
Notation "x <- m ;; k" := (bind m (fun x => k))
  (at level 61, m at next level, right associativity) : py_scope.
Local Open Scope py_scope.

(** ** posixpath and the file system *)

Module Posix.

Definition sep : ascii := "/"%char.

Fixpoint endswith_sep (p : string) : bool :=
  match p with
  | EmptyString => false
  | String c EmptyString => Ascii.eqb c sep
  | String _ p' => endswith_sep p'
  end.

Definition startswith_sep (p : string) : bool :=
  match p with
  | String c _ => Ascii.eqb c sep
  | EmptyString => false
  end.

(** One round of the loop of [posixpath.join]. *)
Definition join2 (path b : string) : string :=
  if startswith_sep b then b
  else if (String.eqb path EmptyString || endswith_sep path)%bool
       then (path ++ b)%string
       else (path ++ String sep b)%string.

(** [os.path.join(a, *p)] *)
Definition path_join (a : string) (p : list string) : string :=
  fold_left join2 p a.

(** [p[:p.rfind('/') + 1]] *)
Fixpoint head_upto_sep (p : string) : string :=
  match p with
  | EmptyString => EmptyString
  | String c p' =>
      match head_upto_sep p' with
      | EmptyString =>
          if Ascii.eqb c sep then String c EmptyString else EmptyString
      | h => String c h
      end
  end.

(** [s.rstrip('/')] *)
Fixpoint rstrip_sep (s : string) : string :=
  match s with
  | EmptyString => EmptyString
  | String c s' =>
      match rstrip_sep s' with
      | EmptyString =>
          if Ascii.eqb c sep then EmptyString else String c EmptyString
      | r => String c r
      end
  end.

(** [os.path.dirname(p)]; on a path joined from [os.getcwd()] it is the
    [Path(p).parent] whose existence pandas checks before it writes. *)
Definition dirname (p : string) : string :=
  let head := head_upto_sep p in
  match rstrip_sep head with
  | EmptyString => head
  | stripped => stripped
  end.

(** What the script can see of the file system: which paths are
    directories, and the content of the files written so far. *)
Record filesystem : Type := mkFS {
  is_dir : string -> bool;
  files : list (string * string)
}.

Definition read_file (fs : filesystem) (path : string) : option string :=
  option_map snd (find (fun e => String.eqb (fst e) path) (files fs)).

(** [open(path, 'w')], the text written, [close()]: the file is created
    or replaced. *)
Definition write_file (path text : string) (fs : filesystem) : filesystem :=
  {| is_dir := is_dir fs;
     files := (path, text)
              :: filter (fun e => negb (String.eqb (fst e) path)) (files fs) |}.

End Posix.

(** ** pandas: the numeric dtype *)

(** [pd.to_numeric], [+] on numeric columns and the printing of numbers by
    [to_csv] belong to pandas and numpy.  The pipeline is stated over any
    implementation of them; [Int64] further down is the integer one. *)
Class Numeric : Type := {
  num : Type;
  (** [pd.to_numeric] on one string of an object column; [Raise ValueError]
      when it is unable to parse the string *)
  parse_number : string -> res num;
  (** element-wise [+] of two numeric columns *)
  num_add : num -> num -> num;
  (** the text [to_csv] writes for a number *)
  num_repr : num -> string
}.

(** ** pandas: frames *)

Module Pd.

(** A column label: the integers of a default [RangeIndex] or a string. *)
Inductive label : Type :=
| LInt (i : nat)
| LStr (s : string).

Definition label_eqb (a b : label) : bool :=
  match a, b with
  | LInt i, LInt j => Nat.eqb i j
  | LStr s, LStr t => String.eqb s t
  | _, _ => false
  end.

Definition mem (l : label) (ls : list label) : bool :=
  existsb (label_eqb l) ls.

Fixpoint distinct (ls : list label) : bool :=
  match ls with
  | [] => true
  | l :: ls' => (negb (mem l ls') && distinct ls')%bool
  end.

(** Position of the first column carrying label [l]. *)
Fixpoint position (l : label) (cols : list label) : option nat :=
  match cols with
  | [] => None
  | c :: cols' =>
      if label_eqb l c then Some 0 else option_map S (position l cols')
  end.

Section Frames.
Context `{Numeric}.

(** A cell: a Python [str] or a number. *)
Inductive value : Type :=
| VStr (s : string)
| VNum (n : num).

(** Rows are kept in row order, each row listing its cells in column
    order; [index] holds the row labels. *)
Record DataFrame : Type := mkDF {
  columns : list label;
  index : list nat;
  values : list (list value)
}.

Definition width (data : list (list string)) : nat :=
  fold_right Nat.max 0 (map (@length string) data).

Definition rectangular (data : list (list string)) : bool :=
  forallb (fun r => Nat.eqb (length r) (width data)) data.

(** [pd.DataFrame(data)] for a list of lists: default integer labels on
    both axes.  pandas fills short rows with NaN. *)
Definition DataFrame_of (data : list (list string)) : res DataFrame :=
  if rectangular data then
    Ok {| columns := map LInt (seq 0 (width data));
          index := seq 0 (length data);
          values := map (map VStr) data |}
  else Unmodelled.

(** [df.iloc[0]]: the first row as a Series, indexed by the columns. *)
Definition iloc0 (df : DataFrame) : res (list (label * value)) :=
  match values df with
  | [] => Raise IndexError
  | r :: _ => Ok (combine (columns df) r)
  end.

Fixpoint assoc {A B : Type} (eqb : A -> A -> bool) (k : A)
    (d : list (A * B)) : option B :=
  match d with
  | [] => None
  | (k', v) :: d' => if eqb k k' then Some v else assoc eqb k d'
  end.

(** The new label of [c] under a Series used as mapper: [c] itself when
    [c] is not in the index of the Series. *)
Definition series_mapper (s : list (label * value)) (c : label)
    : res label :=
  match assoc label_eqb c s with
  | None => Ok c
  | Some (VStr t) => Ok (LStr t)
  | Some (VNum _) => Unmodelled
  end.

(** The new label of [c] under a dict of strings used as mapper. *)
Definition dict_mapper (d : list (string * string)) (c : label)
    : res label :=
  match c with
  | LInt _ => Ok c
  | LStr s =>
      match assoc String.eqb s d with
      | None => Ok c
      | Some t => Ok (LStr t)
      end
  end.

(** [df.rename(columns = mapper)] *)
Definition rename_columns (mapper : label -> res label) (df : DataFrame)
    : res DataFrame :=
  cols <- mapM mapper (columns df) ;;
  Ok {| columns := cols; index := index df; values := values df |}.

(** [df.drop(labels)]: the rows whose label is listed are removed; a
    listed label that is not in the index is a [KeyError]. *)
Definition drop_rows (labels : list nat) (df : DataFrame)
    : res DataFrame :=
  if forallb (fun l => existsb (Nat.eqb l) (index df)) labels then
    let kept :=
      filter (fun ir => negb (existsb (Nat.eqb (fst ir)) labels))
             (combine (index df) (values df)) in
    Ok {| columns := columns df;
          index := map fst kept;
          values := map snd kept |}
  else Raise KeyError.

(** [pd.to_numeric] on one cell: a number is left as it is. *)
Definition to_numeric (v : value) : res value :=
  match v with
  | VStr s => n <- parse_number s ;; Ok (VNum n)
  | VNum n => Ok (VNum n)
  end.

(** One row of [df[keys] = df[keys].apply(f)]: [f] on the cells whose
    column label is among [keys], the other cells unchanged. *)
Definition apply_row (f : value -> res value) (keys cols : list label)
    (row : list value) : res (list value) :=
  if Nat.eqb (length cols) (length row) then
    mapM (fun cv : label * value =>
            if mem (fst cv) keys then f (snd cv) else Ok (snd cv))
         (combine cols row)
  else Unmodelled.

(** [df[keys] = df[keys].apply(f)]: the columns labelled by [keys] are
    selected, [f] is applied to each, and each result is written back under
    its label.  On a frame with distinct labels that is [f] on the cells
    under these labels, row by row; a label that is not in the frame is a
    [KeyError]. *)
Definition apply_columns (f : value -> res value) (keys : list label)
    (df : DataFrame) : res DataFrame :=
  if distinct (columns df) then
    if forallb (fun k => mem k (columns df)) keys then
      rows <- mapM (apply_row f keys (columns df)) (values df) ;;
      Ok {| columns := columns df; index := index df; values := rows |}
    else Raise KeyError
  else Unmodelled.

(** [df[key]]: the column as the list of its cells, in row order. *)
Definition getitem (key : label) (df : DataFrame) : res (list value) :=
  if distinct (columns df) then
    match position key (columns df) with
    | None => Raise KeyError
    | Some p =>
        mapM (fun row => match nth_error row p with
                         | Some v => Ok v
                         | None => Unmodelled
                         end) (values df)
    end
  else Unmodelled.

(** [a + b] on two cells: numeric addition, concatenation of two [str],
    and a [TypeError] for a number and a [str]. *)
Definition add_values (a b : value) : res value :=
  match a, b with
  | VNum x, VNum y => Ok (VNum (num_add x y))
  | VStr s, VStr t => Ok (VStr (s ++ t))
  | _, _ => Raise TypeError
  end.

(** [a + b] on two columns of one frame (same index). *)
Definition add_series (a b : list value) : res (list value) :=
  if Nat.eqb (length a) (length b) then
    mapM (fun xy : value * value => add_values (fst xy) (snd xy))
         (combine a b)
  else Unmodelled.

Fixpoint set_nth {A : Type} (p : nat) (x : A) (l : list A) : list A :=
  match p, l with
  | 0, _ :: l' => x :: l'
  | S p', y :: l' => y :: set_nth p' x l'
  | _, [] => []
  end.

(** One row of [df[key] = col]: the cell is replaced at position [p], or
    added last when the label is new. *)
Definition set_cell (p : option nat) (v : value) (row : list value)
    : list value :=
  match p with
  | Some i => set_nth i v row
  | None => row ++ [v]
  end.

(** [df[key] = col] for a column computed from [df] itself: an existing
    column is overwritten in place, a new one is added last. *)
Definition setitem (key : label) (col : list value) (df : DataFrame)
    : res DataFrame :=
  if distinct (columns df) then
    if Nat.eqb (length col) (length (values df)) then
      let p := position key (columns df) in
      Ok {| columns := match p with
                       | Some _ => columns df
                       | None => columns df ++ [key]
                       end;
            index := index df;
            values := map (fun vr : value * list value =>
                             set_cell p (fst vr) (snd vr))
                          (combine col (values df)) |}
    else Unmodelled
  else Unmodelled.

(** The cells of a row whose column is kept. *)
Fixpoint select {A : Type} (keep : list bool) (row : list A) : list A :=
  match keep, row with
  | true :: keep', v :: row' => v :: select keep' row'
  | false :: keep', _ :: row' => select keep' row'
  | _, _ => []
  end.

(** [df.drop(columns = labels)]: every column carrying a listed label
    is removed; a listed label that no column carries is a
    [KeyError]. *)
Definition drop_columns (labels : list label) (df : DataFrame)
    : res DataFrame :=
  if forallb (fun l => mem l (columns df)) labels then
    let keep := map (fun c => negb (mem c labels)) (columns df) in
    Ok {| columns := select keep (columns df);
          index := index df;
          values := map (select keep) (values df) |}
  else Raise KeyError.

End Frames.

End Pd.

Import Pd.


(** ** csv: the writer behind [DataFrame.to_csv] *)

Module Csv.

Definition delimiter : ascii := ","%char.
Definition quotechar : ascii := "034"%char.
Definition LF : ascii := "010"%char.
Definition CR : ascii := "013"%char.

(** [os.linesep], the default line terminator of [to_csv], on POSIX. *)
Definition lineterminator : string := String LF EmptyString.

Definition special (c : ascii) : bool :=
  (Ascii.eqb c delimiter || Ascii.eqb c quotechar
   || Ascii.eqb c LF || Ascii.eqb c CR)%bool.

Fixpoint needs_quotes (s : string) : bool :=
  match s with
  | EmptyString => false
  | String c s' => (special c || needs_quotes s')%bool
  end.

(** Every quote character of the field is written twice. *)
Fixpoint double_quotes (s : string) : string :=
  match s with
  | EmptyString => EmptyString
  | String c s' =>
      if Ascii.eqb c quotechar
      then String c (String c (double_quotes s'))
      else String c (double_quotes s')
  end.

(** One field under [QUOTE_MINIMAL]: a field holding the delimiter, the
    quote character or a line break is enclosed in quote characters. *)
Definition field (s : string) : string :=
  if needs_quotes s
  then String quotechar (double_quotes s ++ String quotechar EmptyString)
  else s.

(** [writer.writerow(fields)]: a record made of one empty field is written
    as a pair of quote characters. *)
Definition writerow (fields : list string) : string :=
  match fields with
  | [EmptyString] =>
      String quotechar (String quotechar lineterminator)
  | _ => (join (String delimiter EmptyString) (map field fields)
          ++ lineterminator)%string
  end.

(** [writer.writerows(records)] *)
Fixpoint writerows (records : list (list string)) : string :=
  match records with
  | [] => EmptyString
  | r :: records' => (writerow r ++ writerows records')%string
  end.

(** *** Reading the text back

    What "comma-separated text" means is fixed by a reader: records end at
    a line feed outside quotes, fields at a comma outside quotes; a field
    that opens with a quote character runs to the next single quote
    character, a doubled one standing for the character itself. *)

Inductive mode : Type :=
| Unquoted
| Quoted
| QuoteSeen.

(** [None] at the start of a record; else the fields read so far, the
    field being read, and how it is being read. *)
Definition state : Type := option (list string * string * mode).

Inductive action : Type :=
| Reject
| Next (st : state)
| Emit (record : list string).

Definition snoc (s : string) (c : ascii) : string :=
  (s ++ String c EmptyString)%string.

Definition step (st : state) (c : ascii) : action :=
  match st with
  | None =>
      if Ascii.eqb c LF then Emit []
      else if Ascii.eqb c quotechar
      then Next (Some ([], EmptyString, Quoted))
      else if Ascii.eqb c delimiter
      then Next (Some ([EmptyString], EmptyString, Unquoted))
      else Next (Some ([], String c EmptyString, Unquoted))
  | Some (fs, f, Unquoted) =>
      if Ascii.eqb c LF then Emit (fs ++ [f])
      else if Ascii.eqb c delimiter
      then Next (Some (fs ++ [f], EmptyString, Unquoted))
      else if Ascii.eqb c quotechar
      then match f with
           | EmptyString => Next (Some (fs, EmptyString, Quoted))
           | _ => Reject
           end
      else Next (Some (fs, snoc f c, Unquoted))
  | Some (fs, f, Quoted) =>
      if Ascii.eqb c quotechar then Next (Some (fs, f, QuoteSeen))
      else Next (Some (fs, snoc f c, Quoted))
  | Some (fs, f, QuoteSeen) =>
      if Ascii.eqb c quotechar then Next (Some (fs, snoc f c, Quoted))
      else if Ascii.eqb c delimiter
      then Next (Some (fs ++ [f], EmptyString, Unquoted))
      else if Ascii.eqb c LF then Emit (fs ++ [f])
      else Reject
  end.

Fixpoint read_from (st : state) (text : string)
    : option (list (list string)) :=
  match text with
  | EmptyString =>
      match st with
      | None => Some []
      | Some _ => None
      end
  | String c text' =>
      match step st c with
      | Reject => None
      | Next st' => read_from st' text'
      | Emit r => option_map (cons r) (read_from None text')
      end
  end.

(** How the reader stands after a field. *)
Definition closed (f : string) : mode :=
  if needs_quotes f then QuoteSeen else Unquoted.

(** The fields after the first: each comes after a delimiter. *)
Fixpoint more_fields (rest : list string) : string :=
  match rest with
  | [] => EmptyString
  | g :: rest' => String delimiter (field g ++ more_fields rest')%string
  end.

(** The records of a text, when it is well-formed CSV whose last record
    is ended by a line feed. *)
Definition read (text : string) : option (list (list string)) :=
  read_from None text.

End Csv.

(** ** The script *)

Section Script.
Context `{Numeric}.

(** Lines 14-22: the query.  [variables] keeps the order of the dict, which
    is the order of its keys in the URL. *)
Definition variables : list (string * string) :=
  [("B01001_003E", "pop_under5_male");
   ("B01001_027E", "pop_under5_female")].

Definition variables_keys : string := join "," (map fst variables).

Definition url : string :=
  ("https://api.census.gov/data/2019/acs/acs5?get=" ++ variables_keys
   ++ "&for=state%20legislative%20district%20(upper%20chamber):*&in=state:11")%string.

Definition headers : list (string * string) :=
  [("Content-Type", "application/json")].

(** What [requests.get] returned.  [content] is the body as
    [json.loads(response.content.decode('utf-8'))] reads it: the array of
    arrays of strings the API answers with, or [None] when the body is not
    JSON. *)
Record Response : Type := mkResponse {
  status_code : Z;
  content : option (list (list string))
}.

(** Lines 24-25: the binding of the global name [data] after the [if];
    [None] when the name is left unbound. *)
Definition fetcher (response : Response)
    : res (option (list (list string))) :=
  if Z.eqb (status_code response) 200 then
    match content response with
    | Some rows => Ok (Some rows)
    | None => Raise JSONDecodeError
    end
  else Ok None.

(** Reading a global name. *)
Definition global {A : Type} (name : string) (binding : option A) : res A :=
  match binding with
  | Some v => Ok v
  | None => Raise (NameError name)
  end.

(** Lines 28-29, "to dataframe, rename columns": the frame, its first row
    turned into the column labels and removed, the variable codes replaced
    by their names. *)
Definition to_dataframe (data : list (list string)) : res DataFrame :=
  df <- DataFrame_of data ;;
  header <- iloc0 df ;;
  df <- rename_columns (series_mapper header) df ;;
  df <- drop_rows [0] df ;;
  rename_columns (dict_mapper variables) df.

(** Line 32, "columns to numeric": the first two columns. *)
Definition columns_to_numeric (df : DataFrame) : res DataFrame :=
  apply_columns to_numeric (firstn 2 (columns df)) df.

(** The shaper: lines 28-32. *)
Definition shaper (data : list (list string)) : res DataFrame :=
  df <- to_dataframe data ;;
  columns_to_numeric df.

(** Line 35, "calculate total population under age 5". *)
Definition add_total (df : DataFrame) : res DataFrame :=
  male <- getitem (LStr "pop_under5_male") df ;;
  female <- getitem (LStr "pop_under5_female") df ;;
  total <- add_series male female ;;
  setitem (LStr "pop_under5") total df.

(** Line 38, "drop unneeded columns". *)
Definition unneeded : list label :=
  [LStr "state"; LStr "pop_under5_male"; LStr "pop_under5_female"].

Definition drop_unneeded (df : DataFrame) : res DataFrame :=
  drop_columns unneeded df.

(** The aggregator: lines 35-38. *)
Definition aggregator (df : DataFrame) : res DataFrame :=
  df <- add_total df ;;
  drop_unneeded df.

(** The builtin [sum] over a column, started at the integer 0: adding a
    [str] to a number is a [TypeError].  The total itself is discarded. *)
Fixpoint builtin_sum (col : list value) : res unit :=
  match col with
  | [] => Ok tt
  | VNum _ :: col' => builtin_sum col'
  | VStr _ :: _ => Raise TypeError
  end.

(** Lines 41-44; [head], [shape] and [dtypes] only read the frame. *)
Definition checks (df : DataFrame) : res unit :=
  col <- getitem (LStr "pop_under5") df ;;
  builtin_sum col.

(** Lines 28-44: from the payload to the final table. *)
Definition transform (data : list (list string)) : res DataFrame :=
  df <- shaper data ;;
  df <- aggregator df ;;
  _ <- checks df ;;
  Ok df.

Definition label_text (l : label) : string :=
  match l with
  | LInt i => str_of_int (Z.of_nat i)
  | LStr s => s
  end.

Definition value_text (v : value) : string :=
  match v with
  | VStr s => s
  | VNum n => num_repr n
  end.

(** The records [to_csv(..., index = False)] writes: the column labels,
    then the cells of each row; the row labels are left out. *)
Definition csv_records (df : DataFrame) : list (list string) :=
  map label_text (columns df) :: map (map value_text) (values df).

Definition csv_text (df : DataFrame) : string :=
  Csv.writerows (csv_records df).

(** [df.to_csv(path, index = False)]: pandas refuses to write into a
    directory that does not exist. *)
Definition to_csv (path : string) (df : DataFrame) (fs : Posix.filesystem)
    : res unit * Posix.filesystem :=
  if Posix.is_dir fs (Posix.dirname path)
  then (Ok tt, Posix.write_file path (csv_text df) fs)
  else (Raise OSError, fs).

(** Line 47: the path of the output file. *)
Definition output_path (cwd : string) : string :=
  Posix.path_join cwd ["data"; "acs_ward_under5_pop.csv"].

(** The writer: line 47. *)
Definition writer (cwd : string) (df : DataFrame) (fs : Posix.filesystem)
    : res unit * Posix.filesystem :=
  to_csv (output_path cwd) df fs.

(** Lines 24-44: the final table of a run. *)
Definition final_table (response : Response) : res DataFrame :=
  binding <- fetcher response ;;
  data <- global "data" binding ;;
  transform data.

(** The whole script, from the response of the GET on: how it ends and the
    file system it leaves. *)
Definition main (cwd : string) (response : Response) (fs : Posix.filesystem)
    : res unit * Posix.filesystem :=
  match final_table response with
  | Ok df => writer cwd df fs
  | Raise e => (Raise e, fs)
  | Unmodelled => (Unmodelled, fs)
  end.

End Script.

(** ** The integer dtype *)

Module Int64.

Definition wrap (z : Z) : Z := ((z + 2 ^ 63) mod 2 ^ 64 - 2 ^ 63)%Z.

Definition in_range (z : Z) : bool :=
  ((- 2 ^ 63 <=? z) && (z <? 2 ^ 63))%Z%bool.

Definition is_digit (c : ascii) : bool :=
  let n := nat_of_ascii c in ((48 <=? n) && (n <=? 57))%nat%bool.

Definition is_letter (c : ascii) : bool :=
  let n := nat_of_ascii c in
  (((65 <=? n) && (n <=? 90)) || ((97 <=? n) && (n <=? 122)))%nat%bool.

Fixpoint any_char (p : ascii -> bool) (s : string) : bool :=
  match s with
  | EmptyString => false
  | String c s' => (p c || any_char p s')%bool
  end.

(** The letters of [inf], [infinity] and [nan], which pandas reads as
    floats. *)
Definition float_letter (c : ascii) : bool :=
  any_char (Ascii.eqb c) "infatyINFATY".

(** Strings pandas is unable to parse: no digit, and a letter that no
    spelling of a number holds. *)
Definition not_a_number (s : string) : bool :=
  (negb (any_char is_digit s)
   && any_char (fun c => is_letter c && negb (float_letter c)) s)%bool.

(** [pd.to_numeric] on a decimal integer literal that fits 64 bits.  What
    pandas reads as a float or as a wider integer is left unmodelled. *)
Definition parse (s : string) : res Z :=
  match NilZero.int_of_string s with
  | Some d => if in_range (Z.of_int d) then Ok (Z.of_int d) else Unmodelled
  | None => if not_a_number s then Raise ValueError else Unmodelled
  end.

(** numpy adds [int64] modulo [2^64]. *)
Definition add (a b : Z) : Z := wrap (a + b).

End Int64.

#[export] Instance Int64_Numeric : Numeric := {|
  num := Z;
  parse_number := Int64.parse;
  num_add := Int64.add;
  num_repr := str_of_int
|}.

(** ** The fixture of the specification *)

Definition fixture : list (list string) :=
  [["B01001_003E"; "B01001_027E"; "state_leg_district"; "state"];
   ["10"; "20"; "001"; "11"];
   ["5"; "7"; "002"; "11"]].

(** The table the specification expects for it. *)
Definition fixture_table : DataFrame :=
  {| columns := [LStr "state_leg_district"; LStr "pop_under5"];
     index := [1; 2];
     values := [[VStr "001"; VNum 30%Z]; [VStr "002"; VNum 12%Z]] |}.


(** A file system in which every directory exists and no file does. *)
Definition empty_fs : Posix.filesystem :=
  {| Posix.is_dir := fun _ => true; Posix.files := [] |}.

(** ** Well-formed payloads *)

Section WellFormed.
Context `{Numeric}.

(** [row[key]]: the cell of a row of [df] under a column label. *)
Definition cell (df : DataFrame) (row : list value) (key : label)
    : option value :=
  match position key (columns df) with
  | Some p => nth_error row p
  | None => None
  end.

(** Every row of a frame has one cell per column. *)
Definition rows_fit (df : DataFrame) : Prop :=
  Forall (fun row => length row = length (columns df)) (values df).

(** The names the script gives to columns or looks columns up by, besides
    [state]. *)
Definition reserved : list string :=
  map fst variables ++ map snd variables ++ ["pop_under5"].

Definition parses (s : string) : bool :=
  match parse_number s with
  | Ok _ => true
  | _ => false
  end.

Definition is_state (g : string) : bool := String.eqb g "state".

(** The label a header cell ends up as: its name under [variables] when it
    is a variable code, itself otherwise. *)
Definition renamed (s : string) : label :=
  LStr match assoc String.eqb s variables with
       | Some t => t
       | None => s
       end.

(** A data row under a header of [n] columns: as many cells, the first two
    of them numbers. *)
Definition well_formed_row (n : nat) (row : list string) : bool :=
  (Nat.eqb (length row) n
   && match row with
      | a :: b :: _ => parses a && parses b
      | _ => false
      end)%bool.

(** The payload the API answers the query with: a header row naming the
    requested variables, in the order of the query, then the geography
    columns, [state] among them, under distinct names that the script
    does not use itself; then the data rows. *)
Definition well_formed (data : list (list string)) : bool :=
  match data with
  | (c0 :: c1 :: geo) :: rows =>
      (String.eqb c0 "B01001_003E" && String.eqb c1 "B01001_027E"
       && distinct (map LStr geo)
       && forallb (fun g => negb (existsb (String.eqb g) reserved)) geo
       && existsb is_state geo
       && forallb (well_formed_row (2 + length geo)) rows)%bool
  | _ => false
  end.

(** The geography cells that stay: those not under [state]. *)
Definition retained {A : Type} (geo : list string) (cells : list A) : list A :=
  select (map (fun g => negb (is_state g)) geo) cells.

(** What line 32 makes of the cell [s] in column [j] of a data row: a
    number in the first two columns, the string itself in the others. *)
Definition converted (j : nat) (s : string) (v : value) : Prop :=
  if Nat.ltb j 2
  then exists n, parse_number s = Ok n /\ v = VNum n
  else v = VStr s.

(** The two counts of a data row and its geography cells. *)
Definition counts (row : list string) : option (num * num * list string) :=
  match row with
  | a :: b :: cells =>
      match parse_number a, parse_number b with
      | Ok x, Ok y => Some (x, y, cells)
      | _, _ => None
      end
  | _ => None
  end.

(** A well-formed row has its two counts, and as many geography cells as
    the header has geography columns. *)
Definition counted (n : nat) (row : list string)
    (t : num * num * list string) : Prop :=
  counts row = Some t /\ length (snd t) = n.

(** The row after line 32. *)
Definition shaped_of (t : num * num * list string) : list value :=
  let '(x, y, cells) := t in VNum x :: VNum y :: map VStr cells.

Definition total_of (t : num * num * list string) : value :=
  let '(x, y, _) := t in VNum (num_add x y).

(** The row of the final table: the geography cells that stay, then the
    sum of the two counts. *)
Definition final_of (geo : list string) (t : num * num * list string)
    : list value :=
  retained geo (map VStr (snd t)) ++ [total_of t].

(** The final table of a well-formed payload, spelled out. *)
Definition expected_columns (geo : list string) : list label :=
  map LStr (retained geo geo) ++ [LStr "pop_under5"].

Definition expected_row (geo : list string) (row : list string)
    : list value :=
  match counts row with
  | Some t => final_of geo t
  | None => []
  end.

Definition expected (data : list (list string)) : DataFrame :=
  match data with
  | (_ :: _ :: geo) :: rows =>
      {| columns := expected_columns geo;
         index := seq 1 (length rows);
         values := map (expected_row geo) rows |}
  | _ => {| columns := []; index := []; values := [] |}
  end.

End WellFormed.

(** * Properties *)

(** ** The error monad *)

Lemma bind_Ok {A B : Type} (m : res A) (k : A -> res B) (b : B) :
  bind m k = Ok b -> exists a, m = Ok a /\ k a = Ok b.
Proof.
  destruct m as [a| |]; simpl; intros E; try discriminate.
  exists a. split; [reflexivity | exact E].
Qed.

(** Splits a hypothesis [x <- m ;; k = Ok b] into its two steps. *)
Tactic Notation "bind_inv" hyp(H) "as" ident(a) ident(E) :=
  apply bind_Ok in H; destruct H as [a [E H]].

Tactic Notation "bind_inv" hyp(H) :=
  let a := fresh "x" in
  let E := fresh "E" in
  bind_inv H as a E.

Lemma mapM_Ok_length {A B : Type} (f : A -> res B) (l : list A) (r : list B) :
  mapM f l = Ok r -> length r = length l.
Proof.
  revert r. induction l as [|x l IH]; simpl; intros r E.
  - injection E as <-. reflexivity.
  - bind_inv E. bind_inv E. injection E as <-. simpl. f_equal. now apply IH.
Qed.

Lemma mapM_Ok_nth {A B : Type} (f : A -> res B) (l : list A) (r : list B) :
  mapM f l = Ok r ->
  forall i x, nth_error l i = Some x ->
  exists y, nth_error r i = Some y /\ f x = Ok y.
Proof.
  revert r. induction l as [|a l IH]; simpl; intros r E i x Hx.
  - destruct i; discriminate.
  - bind_inv E. bind_inv E. injection E as <-.
    destruct i as [|i]; simpl in *.
    + injection Hx as <-. eauto.
    + eapply IH; eauto.
Qed.

Lemma mapM_pointwise {A B : Type} (f : A -> res B) (g : A -> B) (l : list A) :
  (forall x, In x l -> f x = Ok (g x)) -> mapM f l = Ok (map g l).
Proof.
  induction l as [|a l IH]; simpl; intros Hf; [reflexivity|].
  rewrite Hf by now left. simpl. rewrite IH by auto. reflexivity.
Qed.

(** ** Labels *)

Lemma label_eqb_eq (a b : label) : label_eqb a b = true <-> a = b.
Proof.
  destruct a as [i|s], b as [j|t]; simpl;
    rewrite ?Nat.eqb_eq, ?String.eqb_eq;
    split; intros E; try discriminate; congruence.
Qed.

Lemma label_eqb_refl (a : label) : label_eqb a a = true.
Proof. now apply label_eqb_eq. Qed.

Lemma label_eqb_neq (a b : label) : label_eqb a b = false <-> a <> b.
Proof.
  rewrite <- label_eqb_eq. destruct (label_eqb a b); split; congruence.
Qed.

Lemma mem_In (l : label) (ls : list label) : mem l ls = true <-> In l ls.
Proof.
  unfold mem. rewrite existsb_exists. split.
  - intros [x [Hin E]]. apply label_eqb_eq in E. now subst.
  - intros Hin. exists l. split; [exact Hin | apply label_eqb_refl].
Qed.

Lemma mem_false (l : label) (ls : list label) :
  mem l ls = false <-> ~ In l ls.
Proof.
  rewrite <- mem_In. destruct (mem l ls); split; congruence.
Qed.

Lemma distinct_NoDup (ls : list label) : distinct ls = true <-> NoDup ls.
Proof.
  induction ls as [|l ls IH]; simpl.
  - split; [constructor | reflexivity].
  - rewrite andb_true_iff, negb_true_iff, mem_false, IH. split.
    + intros [Hn Hd]. now constructor.
    + intros Hd. inversion Hd; subst. now split.
Qed.

Lemma position_Some (l : label) (cols : list label) (p : nat) :
  position l cols = Some p -> nth_error cols p = Some l.
Proof.
  revert p. induction cols as [|c cols IH]; simpl; intros p E; [discriminate|].
  destruct (label_eqb l c) eqn:Elc.
  - injection E as <-. apply label_eqb_eq in Elc. now subst.
  - destruct (position l cols) as [q|]; [|discriminate].
    injection E as <-. simpl. now apply IH.
Qed.

Lemma position_None (l : label) (cols : list label) :
  position l cols = None <-> mem l cols = false.
Proof.
  induction cols as [|c cols IH]; simpl; [tauto|].
  destruct (label_eqb l c); simpl.
  - split; discriminate.
  - rewrite <- IH. destruct (position l cols); simpl; split; congruence.
Qed.

Lemma position_nth (cols : list label) (p : nat) (l : label) :
  distinct cols = true -> nth_error cols p = Some l -> position l cols = Some p.
Proof.
  revert p. induction cols as [|c cols IH]; intros p Hd Hn.
  - destruct p; discriminate.
  - simpl in Hd. apply andb_true_iff in Hd as [Hc Hd].
    apply negb_true_iff in Hc. simpl.
    destruct p as [|p]; simpl in Hn.
    + injection Hn as ->. now rewrite label_eqb_refl.
    + destruct (label_eqb l c) eqn:E.
      * apply label_eqb_eq in E. subst c.
        apply nth_error_In in Hn. apply mem_In in Hn. congruence.
      * rewrite (IH p Hd Hn). reflexivity.
Qed.

(** ** Lists *)

Lemma nth_error_seq_Some (k n i : nat) :
  i < n -> nth_error (seq k n) i = Some (k + i).
Proof.
  revert k i. induction n as [|n IH]; intros k i Hi; [lia|].
  destruct i as [|i]; simpl.
  - f_equal. lia.
  - rewrite IH by lia. f_equal. lia.
Qed.

Lemma mapM_Ok_of_nth {A B : Type} (f : A -> res B) (l : list A) (r : list B) :
  length l = length r ->
  (forall i x y, nth_error l i = Some x -> nth_error r i = Some y ->
                 f x = Ok y) ->
  mapM f l = Ok r.
Proof.
  revert r. induction l as [|a l IH]; intros [|b r] Hlen Hf;
    try discriminate; [reflexivity|].
  simpl. rewrite (Hf 0 a b eq_refl eq_refl). simpl.
  rewrite (IH r); [reflexivity | simpl in Hlen; lia |].
  intros i x y Hx Hy. exact (Hf (S i) x y Hx Hy).
Qed.

Lemma map_fst_combine {A B : Type} (l : list A) (r : list B) :
  length l = length r -> map fst (combine l r) = l.
Proof.
  revert r. induction l as [|a l IH]; intros [|b r] E;
    try discriminate; [reflexivity|].
  simpl. f_equal. apply IH. simpl in E. lia.
Qed.

Lemma map_snd_combine {A B : Type} (l : list A) (r : list B) :
  length l = length r -> map snd (combine l r) = r.
Proof.
  revert r. induction l as [|a l IH]; intros [|b r] E;
    try discriminate; [reflexivity|].
  simpl. f_equal. apply IH. simpl in E. lia.
Qed.

Lemma nth_error_combine {A B : Type} (l : list A) (r : list B) (i : nat) :
  nth_error (combine l r) i
  = match nth_error l i, nth_error r i with
    | Some a, Some b => Some (a, b)
    | _, _ => None
    end.
Proof.
  revert r i. induction l as [|a l IH]; intros [|b r] [|i]; simpl;
    try reflexivity.
  - destruct (nth_error l i); reflexivity.
  - apply IH.
Qed.

Lemma combine_map_map {A B C : Type} (f : A -> B) (g : A -> C) (l : list A) :
  combine (map f l) (map g l) = map (fun x => (f x, g x)) l.
Proof. induction l as [|a l IH]; simpl; [reflexivity | now rewrite IH]. Qed.

Lemma mapM_map {A B C : Type} (f : B -> res C) (g : A -> B) (l : list A) :
  mapM f (map g l) = mapM (fun x => f (g x)) l.
Proof. induction l as [|a l IH]; simpl; [reflexivity | now rewrite IH]. Qed.



Section Pipeline.
Context `{Numeric}.

(** ** Dropping columns *)

Lemma length_select_mask {A B : Type} (f : A -> bool) (cols : list A)
    (row : list B) :
  length row = length cols ->
  length (select (map f cols) row) = length (select (map f cols) cols).
Proof.
  revert row. induction cols as [|c cols IH]; intros [|v row] E;
    try discriminate; [reflexivity|].
  simpl in *. destruct (f c); simpl; rewrite (IH row) by lia; reflexivity.
Qed.

Lemma select_app {A : Type} (m1 m2 : list bool) (r1 r2 : list A) :
  length m1 = length r1 ->
  select (m1 ++ m2) (r1 ++ r2) = select m1 r1 ++ select m2 r2.
Proof.
  revert r1. induction m1 as [|b m1 IH]; intros [|v r1] E; try discriminate.
  - reflexivity.
  - simpl in *. destruct b; simpl; rewrite IH by lia; reflexivity.
Qed.

Lemma In_select_mask (f : label -> bool) (cols : list label) (l : label) :
  In l (select (map f cols) cols) <-> In l cols /\ f l = true.
Proof.
  induction cols as [|c cols IH]; simpl; [tauto|].
  destruct (f c) eqn:Ec; simpl; rewrite IH; split.
  - intros [->|[Hin Hf]]; auto.
  - intros [[->|Hin] Hf]; auto.
  - intros [Hin Hf]; auto.
  - intros [[->|Hin] Hf]; [congruence | auto].
Qed.

Lemma distinct_select_mask (f : label -> bool) (cols : list label) :
  distinct cols = true -> distinct (select (map f cols) cols) = true.
Proof.
  rewrite !distinct_NoDup.
  induction cols as [|c cols IH]; simpl; intros Hd; [constructor|].
  inversion Hd as [|? ? Hn Hd']; subst.
  destruct (f c); [|now apply IH].
  constructor; [|now apply IH].
  rewrite In_select_mask. tauto.
Qed.

(** A column that is kept is found again, and holds the same cells. *)
Lemma position_select_mask (f : label -> bool) (cols : list label)
    (l : label) (p : nat) :
  position l cols = Some p -> f l = true ->
  exists q,
    position l (select (map f cols) cols) = Some q /\
    forall (row : list value),
      length row = length cols ->
      nth_error (select (map f cols) row) q = nth_error row p.
Proof.
  revert p. induction cols as [|c cols IH]; simpl; intros p Hp Hf;
    [discriminate|].
  destruct (label_eqb l c) eqn:Elc.
  - injection Hp as <-. apply label_eqb_eq in Elc. subst c. rewrite Hf.
    exists 0. simpl. rewrite label_eqb_refl. split; [reflexivity|].
    intros [|v row] E; [discriminate | reflexivity].
  - destruct (position l cols) as [p'|] eqn:Hp'; [|discriminate].
    injection Hp as <-. destruct (IH p' eq_refl Hf) as [q [Hq Hrow]].
    destruct (f c).
    + exists (S q). simpl. rewrite Elc, Hq. split; [reflexivity|].
      intros [|v row] E; [discriminate|]. simpl. apply Hrow.
      simpl in E. lia.
    + exists q. split; [exact Hq|].
      intros [|v row] E; [discriminate|]. simpl. apply Hrow.
      simpl in E. lia.
Qed.


(** ** Lines 28-29 on a rectangular payload *)

Lemma width_uniform (n : nat) (data : list (list string)) :
  data <> [] -> Forall (fun r => length r = n) data -> width data = n.
Proof.
  unfold width. induction data as [|r data IH]; intros Hne Hall; [congruence|].
  inversion Hall as [|? ? Hr Hrest]; subst. simpl.
  destruct data as [|r' data].
  - simpl. lia.
  - rewrite IH; [lia | discriminate | exact Hrest].
Qed.

Lemma rectangular_uniform (n : nat) (data : list (list string)) :
  Forall (fun r => length r = n) data -> rectangular data = true.
Proof.
  intros Hall. destruct data as [|r data]; [reflexivity|].
  unfold rectangular. rewrite (width_uniform n) by (discriminate || assumption).
  apply forallb_forall. intros x Hx. apply Nat.eqb_eq.
  rewrite Forall_forall in Hall. now apply Hall.
Qed.

Lemma rectangular_Forall (data : list (list string)) :
  rectangular data = true ->
  Forall (fun r => length r = width data) data.
Proof.
  unfold rectangular. rewrite forallb_forall, Forall_forall.
  intros Hall x Hx. apply Nat.eqb_eq. now apply Hall.
Qed.

Lemma assoc_combine_seq (vs : list value) (k i : nat) (v : value) :
  nth_error vs i = Some v ->
  assoc label_eqb (LInt (k + i))
        (combine (map LInt (seq k (length vs))) vs) = Some v.
Proof.
  revert k i. induction vs as [|a vs IH]; intros k i Hv.
  - destruct i; discriminate.
  - simpl. destruct i as [|i]; simpl in Hv.
    + injection Hv as ->. rewrite Nat.add_0_r, Nat.eqb_refl. reflexivity.
    + replace (Nat.eqb (k + S i) k) with false
        by (symmetry; apply Nat.eqb_neq; lia).
      replace (k + S i) with (S k + i) by lia. now apply IH.
Qed.

Lemma rename_by_header (header : list string) (idx : list nat)
    (rows : list (list value)) :
  rename_columns
    (series_mapper
       (combine (map LInt (seq 0 (length header))) (map VStr header)))
    (mkDF (map LInt (seq 0 (length header))) idx rows)
  = Ok (mkDF (map LStr header) idx rows).
Proof.
  unfold rename_columns. simpl.
  rewrite (mapM_Ok_of_nth _ _ (map LStr header)); [reflexivity | |].
  - now rewrite !length_map, length_seq.
  - intros i x y Hx Hy.
    rewrite nth_error_map in Hx, Hy.
    destruct (nth_error header i) as [s|] eqn:Hs; [|discriminate].
    assert (Hi : i < length header) by (apply nth_error_Some; congruence).
    rewrite nth_error_seq_Some in Hx by exact Hi.
    simpl in Hx, Hy. injection Hx as <-. injection Hy as <-.
    unfold series_mapper.
    pose proof (assoc_combine_seq (map VStr header) 0 i (VStr s)) as Ha.
    rewrite length_map in Ha. simpl in Ha. rewrite Ha; [reflexivity|].
    rewrite nth_error_map, Hs. reflexivity.
Qed.

Lemma filter_rows_after_first (k n : nat) (rows : list (list value)) :
  1 <= k ->
  filter (fun ir : nat * list value => negb (existsb (Nat.eqb (fst ir)) [0]))
         (combine (seq k n) rows)
  = combine (seq k n) rows.
Proof.
  revert k rows. induction n as [|n IH]; intros k rows Hk; [reflexivity|].
  destruct rows as [|r rows]; [reflexivity|]. simpl.
  destruct k as [|k]; [lia|]. simpl. f_equal. apply IH. lia.
Qed.

Lemma drop_first_row (cols : list label) (row : list value)
    (rows : list (list value)) :
  drop_rows [0] (mkDF cols (seq 0 (S (length rows))) (row :: rows))
  = Ok (mkDF cols (seq 1 (length rows)) rows).
Proof.
  unfold drop_rows. simpl.
  rewrite filter_rows_after_first by lia.
  rewrite map_fst_combine, map_snd_combine by now rewrite length_seq.
  reflexivity.
Qed.

Lemma rename_by_variables (header : list string) (idx : list nat)
    (rows : list (list value)) :
  rename_columns (dict_mapper variables) (mkDF (map LStr header) idx rows)
  = Ok (mkDF (map renamed header) idx rows).
Proof.
  unfold rename_columns. simpl.
  rewrite (mapM_pointwise _ (fun c => match c with
                                      | LStr s => renamed s
                                      | LInt _ => c
                                      end)).
  - simpl. rewrite map_map. reflexivity.
  - intros [i|s] _; [reflexivity|]. unfold dict_mapper, renamed.
    destruct (assoc String.eqb s variables); reflexivity.
Qed.

(** Lines 28-29 on a header row followed by rows of the same length. *)
Lemma to_dataframe_rectangular (header : list string)
    (rows : list (list string)) :
  Forall (fun r => length r = length header) rows ->
  to_dataframe (header :: rows)
  = Ok (mkDF (map renamed header) (seq 1 (length rows))
             (map (map VStr) rows)).
Proof.
  intros Hrows. unfold to_dataframe, DataFrame_of.
  assert (Hall : Forall (fun r => length r = length header) (header :: rows))
    by now constructor.
  rewrite (rectangular_uniform _ _ Hall).
  assert (Hne : header :: rows <> []) by discriminate.
  rewrite (width_uniform _ _ Hne Hall).
  cbn [bind iloc0 values columns map length].
  rewrite rename_by_header. cbn [bind].
  rewrite <- (length_map (map VStr) rows).
  rewrite drop_first_row. cbn [bind].
  rewrite rename_by_variables. now rewrite length_map.
Qed.

(** ** Line 32 on a well-formed payload *)

Lemma mapM_Forall2 {A B : Type} (f : A -> res B) (l : list A) (r : list B) :
  Forall2 (fun x y => f x = Ok y) l r -> mapM f l = Ok r.
Proof.
  induction 1 as [|x y l r E _ IH]; simpl; [reflexivity|].
  rewrite E. simpl. rewrite IH. reflexivity.
Qed.

Lemma counts_Some (row : list string) (x y : num) (cells : list string) :
  counts row = Some (x, y, cells) ->
  exists a b, row = a :: b :: cells /\
              parse_number a = Ok x /\ parse_number b = Ok y.
Proof.
  destruct row as [|a [|b rest]]; simpl; try discriminate.
  destruct (parse_number a) as [x'| |] eqn:Ea; try discriminate.
  destruct (parse_number b) as [y'| |] eqn:Eb; try discriminate.
  intros [= <- <- <-]. eauto.
Qed.

Lemma well_formed_row_counted (n : nat) (row : list string) :
  well_formed_row (2 + n) row = true -> exists t, counted n row t.
Proof.
  unfold well_formed_row, counted, counts, parses.
  rewrite andb_true_iff, Nat.eqb_eq. intros [Hlen Hp].
  destruct row as [|a [|b cells]]; try discriminate.
  destruct (parse_number a) as [x| |]; try discriminate.
  destruct (parse_number b) as [y| |]; try discriminate.
  exists (x, y, cells). simpl in *. split; [reflexivity | lia].
Qed.

Lemma well_formed_rows_counted (n : nat) (rows : list (list string)) :
  forallb (well_formed_row (2 + n)) rows = true ->
  exists ts, Forall2 (counted n) rows ts.
Proof.
  induction rows as [|row rows IH]; intros Hall.
  - exists []. constructor.
  - change (well_formed_row (2 + n) row
            && forallb (well_formed_row (2 + n)) rows = true)%bool in Hall.
    apply andb_true_iff in Hall as [Hrow Hrows].
    destruct (well_formed_row_counted n row Hrow) as [t Ht].
    destruct (IH Hrows) as [ts Hts].
    exists (t :: ts). now constructor.
Qed.

Lemma counted_expected (geo : list string) (rows : list (list string))
    (ts : list (num * num * list string)) :
  Forall2 (counted (length geo)) rows ts ->
  map (expected_row geo) rows = map (final_of geo) ts.
Proof.
  induction 1 as [|row t rows ts [Hc _] _ IH]; simpl; [reflexivity|].
  unfold expected_row at 1. rewrite Hc. now f_equal.
Qed.

Lemma apply_row_counted (k0 k1 : label) (geoL : list label)
    (row : list string) (t : num * num * list string) :
  counted (length geoL) row t ->
  (forall g, In g geoL -> mem g [k0; k1] = false) ->
  apply_row to_numeric [k0; k1] (k0 :: k1 :: geoL) (map VStr row)
  = Ok (shaped_of t).
Proof.
  destruct t as [[x y] cells]. intros [Hc Hlen] Hgeo. simpl in Hlen.
  apply counts_Some in Hc as [a [b [-> [Ea Eb]]]].
  unfold apply_row. cbn [map length].
  rewrite length_map, Hlen, Nat.eqb_refl.
  cbn [combine mapM fst snd mem existsb].
  rewrite !label_eqb_refl, orb_true_r. cbn [orb to_numeric].
  rewrite Ea, Eb. cbn [bind].
  rewrite (mapM_pointwise _ snd).
  - cbn [bind]. rewrite map_snd_combine by now rewrite length_map.
    reflexivity.
  - intros [c v] Hin. apply in_combine_l in Hin. cbn [fst snd].
    specialize (Hgeo c Hin). unfold mem in Hgeo. cbn [existsb] in Hgeo.
    now rewrite Hgeo.
Qed.

Lemma columns_to_numeric_counted (k0 k1 : label) (geoL : list label)
    (idx : list nat) (rows : list (list string))
    (ts : list (num * num * list string)) :
  distinct (k0 :: k1 :: geoL) = true ->
  Forall2 (counted (length geoL)) rows ts ->
  columns_to_numeric (mkDF (k0 :: k1 :: geoL) idx (map (map VStr) rows))
  = Ok (mkDF (k0 :: k1 :: geoL) idx (map shaped_of ts)).
Proof.
  intros Hd Hrows. unfold columns_to_numeric, apply_columns.
  cbn [columns values index firstn]. rewrite Hd.
  assert (Hgeo : forall g, In g geoL -> mem g [k0; k1] = false).
  { apply distinct_NoDup in Hd. inversion Hd as [|? ? H0 Hd1]; subst.
    inversion Hd1 as [|? ? H1 _]; subst.
    intros g Hg. apply mem_false. simpl. intros [<-|[<-|[]]].
    - apply H0. now right.
    - now apply H1. }
  cbn [forallb mem existsb]. rewrite !label_eqb_refl, orb_true_r.
  cbn [orb andb].
  rewrite (mapM_Forall2 _ _ (map shaped_of ts)); [reflexivity|].
  induction Hrows as [|row t rows ts Hrow _ IH]; simpl; constructor.
  - now apply apply_row_counted.
  - exact IH.
Qed.

(** ** Lines 35-44 on a well-formed payload *)

Lemma getitem_map {T : Type} (key : label) (cols : list label)
    (idx : list nat) (ts : list T) (row_of : T -> list value)
    (cell_of : T -> value) (p : nat) :
  distinct cols = true ->
  position key cols = Some p ->
  (forall t, In t ts -> nth_error (row_of t) p = Some (cell_of t)) ->
  getitem key (mkDF cols idx (map row_of ts)) = Ok (map cell_of ts).
Proof.
  intros Hd Hp Hcell. unfold getitem. cbn [columns values].
  rewrite Hd, Hp, mapM_map. apply mapM_pointwise.
  intros t Ht. now rewrite (Hcell t Ht).
Qed.

Lemma position_app_last (l : label) (xs : list label) :
  mem l xs = false -> position l (xs ++ [l]) = Some (length xs).
Proof.
  induction xs as [|x xs IH]; simpl; intros Hm.
  - now rewrite label_eqb_refl.
  - apply orb_false_iff in Hm as [Hx Hm]. rewrite Hx, (IH Hm). reflexivity.
Qed.

Lemma distinct_app_last (l : label) (xs : list label) :
  distinct xs = true -> mem l xs = false -> distinct (xs ++ [l]) = true.
Proof.
  rewrite !distinct_NoDup, mem_false. intros Hd Hn.
  induction Hd as [|x xs Hx _ IH]; simpl.
  - constructor; [intros [] | constructor].
  - constructor.
    + rewrite in_app_iff. simpl. intros [Hin|[->|[]]]; [now apply Hx|].
      apply Hn. now left.
    + apply IH. intros Hin. apply Hn. now right.
Qed.

#[local] Abbreviation male := (LStr "pop_under5_male").
#[local] Abbreviation female := (LStr "pop_under5_female").
#[local] Abbreviation pop_under5 := (LStr "pop_under5").

Lemma add_total_counted (geoL : list label) (idx : list nat)
    (ts : list (num * num * list string)) :
  distinct (male :: female :: geoL) = true ->
  mem pop_under5 geoL = false ->
  add_total (mkDF (male :: female :: geoL) idx (map shaped_of ts))
  = Ok (mkDF (male :: female :: geoL ++ [pop_under5]) idx
             (map (fun t => shaped_of t ++ [total_of t]) ts)).
Proof.
  intros Hd Hpop. unfold add_total.
  rewrite (getitem_map male _ _ _ _ (fun t => VNum (fst (fst t))) 0 Hd);
    [| reflexivity | now intros [[x y] cells] _].
  rewrite (getitem_map female _ _ _ _ (fun t => VNum (snd (fst t))) 1 Hd);
    [| reflexivity | now intros [[x y] cells] _].
  cbn [bind]. unfold add_series.
  rewrite !length_map, Nat.eqb_refl, combine_map_map, mapM_map.
  rewrite (mapM_pointwise _ total_of) by now intros [[x y] cells] _.
  cbn [bind]. unfold setitem. cbn [columns values index].
  rewrite Hd, !length_map, Nat.eqb_refl.
  assert (Hp : position pop_under5 (male :: female :: geoL) = None).
  { apply position_None. simpl. exact Hpop. }
  rewrite Hp, combine_map_map, map_map. reflexivity.
Qed.

Lemma unneeded_geography (geo : list string) :
  forallb (fun g => negb (existsb (String.eqb g) reserved)) geo = true ->
  map (fun c => negb (mem c unneeded)) (map LStr geo)
  = map (fun g => negb (is_state g)) geo.
Proof.
  intros Hres. rewrite map_map. apply map_ext_in. intros g Hg.
  rewrite forallb_forall in Hres. specialize (Hres g Hg).
  apply negb_true_iff in Hres. simpl in Hres.
  repeat (apply orb_false_iff in Hres as [? Hres]).
  unfold mem, unneeded, is_state. simpl.
  repeat match goal with E : String.eqb g _ = false |- _ =>
    rewrite E; clear E end.
  now rewrite !orb_false_r.
Qed.

Lemma reserved_not_geography (geo : list string) (s : string) :
  forallb (fun g => negb (existsb (String.eqb g) reserved)) geo = true ->
  In s reserved -> mem (LStr s) (map LStr geo) = false.
Proof.
  intros Hres Hs. apply mem_false. rewrite in_map_iff.
  intros [g [[= ->] Hg]].
  rewrite forallb_forall in Hres. specialize (Hres s Hg).
  apply negb_true_iff in Hres.
  assert (existsb (String.eqb s) reserved = true); [|congruence].
  apply existsb_exists. exists s. split; [exact Hs | apply String.eqb_refl].
Qed.

Lemma select_map {A B : Type} (f : A -> B) (m : list bool) (l : list A) :
  select m (map f l) = map f (select m l).
Proof.
  revert l. induction m as [|b m IH]; intros [|a l]; simpl;
    try reflexivity; destruct b; simpl; now rewrite ?IH.
Qed.

Lemma drop_unneeded_counted (geo : list string) (idx : list nat)
    (ts : list (num * num * list string)) :
  forallb (fun g => negb (existsb (String.eqb g) reserved)) geo = true ->
  existsb is_state geo = true ->
  Forall (fun t => length (snd t) = length geo) ts ->
  drop_unneeded
    (mkDF (male :: female :: map LStr geo ++ [pop_under5]) idx
          (map (fun t => shaped_of t ++ [total_of t]) ts))
  = Ok (mkDF (expected_columns geo) idx (map (final_of geo) ts)).
Proof.
  intros Hres Hstate Hlen. unfold drop_unneeded, drop_columns.
  cbn [columns values index].
  assert (Hin : mem (LStr "state") (map LStr geo) = true).
  { apply mem_In, in_map. apply existsb_exists in Hstate as [g [Hg E]].
    apply String.eqb_eq in E. now subst. }
  assert (Hall : forallb
            (fun l => mem l (male :: female :: map LStr geo ++ [pop_under5]))
            unneeded = true).
  { cbn [forallb unneeded]. rewrite !andb_true_iff. repeat split.
    apply mem_In. right. right. apply in_or_app. left. now apply mem_In. }
  rewrite Hall.
  assert (Hmask :
    map (fun c => negb (mem c unneeded))
        (male :: female :: map LStr geo ++ [pop_under5])
    = false :: false :: map (fun g => negb (is_state g)) geo ++ [true]).
  { cbn [map]. rewrite map_app, unneeded_geography by exact Hres.
    reflexivity. }
  rewrite Hmask. f_equal. f_equal.
  - cbn [select]. rewrite select_app by now rewrite !length_map.
    rewrite select_map. reflexivity.
  - rewrite map_map. apply map_ext_in. intros [[x y] cells] Ht.
    rewrite Forall_forall in Hlen. specialize (Hlen _ Ht). simpl in Hlen.
    cbn [shaped_of app select].
    rewrite select_app by now rewrite !length_map.
    reflexivity.
Qed.

Lemma builtin_sum_totals (ts : list (num * num * list string)) :
  builtin_sum (map total_of ts) = Ok tt.
Proof.
  induction ts as [|[[x y] cells] ts IH]; simpl; [reflexivity | exact IH].
Qed.

Lemma checks_counted (geo : list string) (idx : list nat)
    (ts : list (num * num * list string)) :
  distinct (map LStr geo) = true ->
  forallb (fun g => negb (existsb (String.eqb g) reserved)) geo = true ->
  Forall (fun t => length (snd t) = length geo) ts ->
  checks (mkDF (expected_columns geo) idx (map (final_of geo) ts)) = Ok tt.
Proof.
  intros Hd Hres Hlen. unfold checks, expected_columns, retained.
  assert (Hpop : mem pop_under5
                   (map LStr (select (map (fun g => negb (is_state g)) geo) geo))
                 = false).
  { apply mem_false. intros Hin. apply in_map_iff in Hin as [g [[= ->] Hg]].
    assert (Hgeo : In (LStr "pop_under5") (map LStr geo)).
    { apply in_map.
      clear -Hg. revert Hg. generalize (fun g => negb (is_state g)).
      intros f. induction geo as [|g geo IH]; simpl; [tauto|].
      destruct (f g); simpl; intuition. }
    apply mem_In in Hgeo.
    rewrite (reserved_not_geography geo "pop_under5" Hres) in Hgeo;
      [discriminate | simpl; tauto]. }
  rewrite (getitem_map pop_under5 _ _ _ _ total_of
             (length (select (map (fun g => negb (is_state g)) geo) geo))).
  - cbn [bind]. apply builtin_sum_totals.
  - apply distinct_app_last; [|exact Hpop].
    rewrite <- select_map.
    replace (map (fun g => negb (is_state g)) geo)
      with (map (fun c => match c with
                          | LStr g => negb (is_state g)
                          | LInt _ => true
                          end) (map LStr geo))
      by now rewrite map_map.
    now apply distinct_select_mask.
  - rewrite <- (length_map LStr). now apply position_app_last.
  - intros t Ht. rewrite Forall_forall in Hlen. specialize (Hlen t Ht).
    unfold final_of, retained.
    rewrite nth_error_app2.
    + rewrite (length_select_mask _ geo (map VStr (snd t)))
        by now rewrite length_map.
      now rewrite Nat.sub_diag.
    + rewrite (length_select_mask _ geo (map VStr (snd t)))
        by now rewrite length_map.
      lia.
Qed.

(** ** The final table of a well-formed payload *)

Lemma renamed_geography (geo : list string) :
  forallb (fun g => negb (existsb (String.eqb g) reserved)) geo = true ->
  map renamed geo = map LStr geo.
Proof.
  intros Hres. apply map_ext_in. intros g Hg.
  rewrite forallb_forall in Hres. specialize (Hres g Hg).
  apply negb_true_iff in Hres. simpl in Hres.
  repeat (apply orb_false_iff in Hres as [? Hres]).
  unfold renamed, variables. simpl.
  repeat match goal with E : String.eqb g _ = false |- _ =>
    rewrite E; clear E end.
  reflexivity.
Qed.

Lemma counted_length (n : nat) (row : list string)
    (t : num * num * list string) :
  counted n row t -> length row = 2 + n.
Proof.
  destruct t as [[x y] cells]. intros [Hc Hlen].
  apply counts_Some in Hc as [a [b [-> _]]]. simpl in *. lia.
Qed.

Lemma distinct_shaped_columns (geo : list string) :
  distinct (map LStr geo) = true ->
  forallb (fun g => negb (existsb (String.eqb g) reserved)) geo = true ->
  distinct (male :: female :: map LStr geo) = true.
Proof.
  intros Hd Hres. cbn [distinct mem existsb].
  fold (mem male (map LStr geo)). fold (mem female (map LStr geo)).
  rewrite (reserved_not_geography geo "pop_under5_male" Hres)
    by (simpl; tauto).
  rewrite (reserved_not_geography geo "pop_under5_female" Hres)
    by (simpl; tauto).
  rewrite Hd. reflexivity.
Qed.

(** On a well-formed payload the script reaches line 47 with the table
    [expected] spells out. *)
Lemma transform_well_formed (data : list (list string)) :
  well_formed data = true -> transform data = Ok (expected data).
Proof.
  destruct data as [|[|c0 [|c1 geo]] rows]; try discriminate.
  unfold well_formed. rewrite !andb_true_iff.
  intros [[[[[E0 E1] Hd] Hres] Hstate] Hrows].
  apply String.eqb_eq in E0, E1. subst c0 c1.
  destruct (well_formed_rows_counted (length geo) rows Hrows) as [ts Hts].
  assert (Hlen : Forall (fun r => length r
      = length ("B01001_003E" :: "B01001_027E" :: geo)) rows).
  { clear -Hts. induction Hts as [|row t rows ts Hrow _ IH]; constructor.
    - simpl. now apply counted_length in Hrow.
    - exact IH. }
  assert (Hcells : Forall (fun t => length (snd t) = length geo) ts).
  { clear -Hts. induction Hts as [|row t rows ts [_ Hrow] _ IH];
      now constructor. }
  pose proof (distinct_shaped_columns geo Hd Hres) as Hd'.
  unfold transform, shaper.
  rewrite (to_dataframe_rectangular _ _ Hlen). cbn [bind map].
  change (renamed "B01001_003E") with male.
  change (renamed "B01001_027E") with female.
  rewrite (renamed_geography geo Hres).
  rewrite (columns_to_numeric_counted male female (map LStr geo) _ rows ts Hd')
    by now rewrite length_map.
  cbn [bind]. unfold aggregator.
  rewrite (add_total_counted (map LStr geo) _ ts Hd')
    by (apply (reserved_not_geography geo "pop_under5" Hres); simpl; tauto).
  cbn [bind].
  rewrite (drop_unneeded_counted geo _ ts Hres Hstate Hcells).
  cbn [bind].
  rewrite (checks_counted geo _ ts Hd Hres Hcells).
  cbn [bind]. unfold expected.
  now rewrite (counted_expected geo rows ts Hts).
Qed.

(** ** Lines 28-32 on any payload *)

Lemma to_dataframe_Ok (data : list (list string)) (df : DataFrame) :
  to_dataframe data = Ok df ->
  exists header rows,
    data = header :: rows /\
    Forall (fun r => length r = length header) rows /\
    df = mkDF (map renamed header) (seq 1 (length rows))
              (map (map VStr) rows).
Proof.
  intros E.
  assert (Hrect : rectangular data = true).
  { unfold to_dataframe, DataFrame_of in E.
    destruct (rectangular data); [reflexivity | discriminate]. }
  destruct data as [|header rows].
  - unfold to_dataframe, DataFrame_of in E. simpl in E. discriminate.
  - apply rectangular_Forall in Hrect.
    inversion Hrect as [|? ? Hh Hrows]; subst.
    rewrite <- Hh in Hrows.
    exists header, rows. split; [reflexivity|]. split; [exact Hrows|].
    rewrite (to_dataframe_rectangular _ _ Hrows) in E. now injection E.
Qed.

Lemma mapM_Ok_Forall2 {A B : Type} (f : A -> res B) (l : list A)
    (r : list B) :
  mapM f l = Ok r -> Forall2 (fun x y => f x = Ok y) l r.
Proof.
  revert r. induction l as [|a l IH]; simpl; intros r E.
  - injection E as <-. constructor.
  - bind_inv E. bind_inv E. injection E as <-. constructor; auto.
Qed.

Lemma mem_firstn_nth (cols : list label) (j : nat) (c : label) :
  distinct cols = true -> nth_error cols j = Some c ->
  mem c (firstn 2 cols) = Nat.ltb j 2.
Proof.
  intros Hd Hj. destruct (Nat.ltb j 2) eqn:Ej.
  - apply mem_In. apply (nth_error_In _ j).
    rewrite nth_error_firstn, Ej. exact Hj.
  - apply mem_false. intros Hin.
    apply In_nth_error in Hin as [i Hi].
    rewrite nth_error_firstn in Hi.
    destruct (Nat.ltb i 2) eqn:Ei; [|discriminate].
    pose proof (position_nth _ _ _ Hd Hi) as Pi.
    pose proof (position_nth _ _ _ Hd Hj) as Pj.
    rewrite Pi in Pj. injection Pj as ->. congruence.
Qed.

Lemma apply_row_Ok (f : value -> res value) (keys cols : list label)
    (row row' : list value) :
  apply_row f keys cols row = Ok row' ->
  length row = length cols /\ length row' = length cols /\
  forall j c v, nth_error cols j = Some c -> nth_error row j = Some v ->
    exists v', nth_error row' j = Some v' /\
               (if mem c keys then f v else Ok v) = Ok v'.
Proof.
  unfold apply_row. destruct (Nat.eqb (length cols) (length row)) eqn:El;
    [|discriminate].
  apply Nat.eqb_eq in El. intros E. split; [now symmetry|]. split.
  - apply mapM_Ok_length in E. rewrite E, length_combine. lia.
  - intros j c v Hc Hv.
    destruct (mapM_Ok_nth _ _ _ E j (c, v)) as [v' [Hv' Ef]].
    + now rewrite nth_error_combine, Hc, Hv.
    + exists v'. split; [exact Hv' | exact Ef].
Qed.

(** Line 32 turns the cells of the first two columns into numbers and
    leaves the others as they are. *)
Lemma shaper_Ok (data : list (list string)) (sh : DataFrame) :
  shaper data = Ok sh ->
  exists header rows,
    data = header :: rows /\
    Forall (fun r => length r = length header) rows /\
    columns sh = map renamed header /\
    distinct (columns sh) = true /\
    index sh = seq 1 (length rows) /\
    Forall2 (fun row row' =>
               length row' = length header /\
               forall j s, nth_error row j = Some s ->
                 exists v, nth_error row' j = Some v /\ converted j s v)
            rows (values sh).
Proof.
  unfold shaper. intros E. bind_inv E as df Edf.
  apply to_dataframe_Ok in Edf as [header [rows [-> [Hrows ->]]]].
  exists header, rows. split; [reflexivity|]. split; [exact Hrows|].
  unfold columns_to_numeric, apply_columns in E. cbn [columns values index] in E.
  destruct (distinct (map renamed header)) eqn:Hd; [|discriminate].
  destruct (forallb _ _); [|discriminate].
  bind_inv E as rs Ers. injection E as <-. cbn [columns values index].
  repeat split; try reflexivity; try exact Hd.
  apply mapM_Ok_Forall2 in Ers. clear -Ers Hrows Hd.
  revert rs Ers. induction Hrows as [|row rows Hrow _ IH]; intros rs E.
  - inversion E; subst. constructor.
  - inversion E as [|? row' ? rs' Erow Erest]; subst.
    constructor; [|now apply IH].
    apply apply_row_Ok in Erow as [_ [Hlen Hcells]].
    split; [now rewrite length_map in Hlen|].
    intros j s Hs.
    destruct (nth_error (map renamed header) j) as [c|] eqn:Hc.
    + destruct (Hcells j c (VStr s)) as [v [Hv Ev]];
        [exact Hc | now rewrite nth_error_map, Hs |].
      exists v. split; [exact Hv|].
      rewrite (mem_firstn_nth _ _ _ Hd Hc) in Ev. unfold converted.
      destruct (Nat.ltb j 2).
      * simpl in Ev. bind_inv Ev. injection Ev as <-. eauto.
      * now injection Ev.
    + apply nth_error_None in Hc. rewrite length_map in Hc.
      assert (j < length row) by (apply nth_error_Some; congruence). lia.
Qed.

(** ** A cell that is not a number *)







(** ** Line 35 on any frame *)

Lemma length_set_nth {A : Type} (p : nat) (x : A) (l : list A) :
  length (set_nth p x l) = length l.
Proof.
  revert p. induction l as [|a l IH]; intros [|p]; simpl; auto.
Qed.

Lemma nth_error_set_nth_eq {A : Type} (p : nat) (x : A) (l : list A) :
  p < length l -> nth_error (set_nth p x l) p = Some x.
Proof.
  revert p. induction l as [|a l IH]; intros [|p] Hp; simpl in *;
    try lia; [reflexivity | apply IH; lia].
Qed.

Lemma nth_error_set_nth_neq {A : Type} (p q : nat) (x : A) (l : list A) :
  p <> q -> nth_error (set_nth p x l) q = nth_error l q.
Proof.
  revert p q. induction l as [|a l IH]; intros [|p] [|q] Hpq; simpl;
    try reflexivity; try congruence.
  apply IH. congruence.
Qed.

Lemma position_app_l (l : label) (xs ys : list label) (p : nat) :
  position l xs = Some p -> position l (xs ++ ys) = Some p.
Proof.
  revert p. induction xs as [|x xs IH]; simpl; intros p E; [discriminate|].
  destruct (label_eqb l x); [exact E|].
  destruct (position l xs) as [q|]; [|discriminate].
  now rewrite (IH q eq_refl).
Qed.

Lemma position_lt (l : label) (cols : list label) (p : nat) :
  position l cols = Some p -> p < length cols.
Proof.
  intros E. apply position_Some in E. apply nth_error_Some. congruence.
Qed.

Lemma getitem_Ok (key : label) (df : DataFrame) (col : list value) :
  getitem key df = Ok col ->
  distinct (columns df) = true /\
  exists p, position key (columns df) = Some p /\
            length col = length (values df) /\
            forall i row, nth_error (values df) i = Some row ->
              exists v, nth_error col i = Some v /\ nth_error row p = Some v.
Proof.
  unfold getitem. destruct (distinct (columns df)); [|discriminate].
  destruct (position key (columns df)) as [p|]; [|discriminate].
  intros E. split; [reflexivity|]. exists p. split; [reflexivity|].
  split; [now apply mapM_Ok_length in E|].
  intros i row Hrow.
  destruct (mapM_Ok_nth _ _ _ E i row Hrow) as [v [Hv Ev]].
  exists v. split; [exact Hv|].
  destruct (nth_error row p); [now injection Ev as -> | discriminate].
Qed.

Lemma add_series_Ok (a b tot : list value) :
  add_series a b = Ok tot ->
  length tot = length a /\
  forall i x y, nth_error a i = Some x -> nth_error b i = Some y ->
    exists z, nth_error tot i = Some z /\ add_values x y = Ok z.
Proof.
  unfold add_series. destruct (Nat.eqb (length a) (length b)) eqn:El;
    [|discriminate].
  apply Nat.eqb_eq in El. intros E. split.
  - apply mapM_Ok_length in E. rewrite E, length_combine. lia.
  - intros i x y Hx Hy.
    apply (mapM_Ok_nth _ _ _ E i (x, y)).
    now rewrite nth_error_combine, Hx, Hy.
Qed.

(** After line 35 every row holds, under [pop_under5], the sum of its cells
    under [pop_under5_male] and [pop_under5_female]. *)
Lemma add_total_Ok (df t : DataFrame) :
  rows_fit df -> add_total df = Ok t ->
  distinct (columns t) = true /\ rows_fit t /\
  index t = index df /\ length (values t) = length (values df) /\
  forall i before, nth_error (values t) i = Some before ->
    exists a b z,
      cell t before male = Some a /\ cell t before female = Some b /\
      cell t before pop_under5 = Some z /\ add_values a b = Ok z.
Proof.
  intros Hfit E. unfold add_total in E.
  bind_inv E as ms Ems. bind_inv E as fs Efs. bind_inv E as tot Etot.
  apply getitem_Ok in Ems as [Hd [pm [Hpm [Lms Hms]]]].
  apply getitem_Ok in Efs as [_ [pf [Hpf [Lfs Hfs]]]].
  apply add_series_Ok in Etot as [Ltot Htot].
  unfold setitem in E. rewrite Hd in E.
  destruct (Nat.eqb (length tot) (length (values df))) eqn:El; [|discriminate].
  apply Nat.eqb_eq in El. injection E as <-. cbn [columns values index].
  unfold rows_fit in *. cbn [columns values]. rewrite Forall_forall in Hfit.
  assert (Hrow : forall i before,
    nth_error (map (fun vr : value * list value =>
                      set_cell (position pop_under5 (columns df))
                               (fst vr) (snd vr))
                   (combine tot (values df))) i = Some before ->
    exists z row, nth_error tot i = Some z /\
                  nth_error (values df) i = Some row /\
                  before = set_cell (position pop_under5 (columns df)) z row).
  { intros i before Hb. rewrite nth_error_map, nth_error_combine in Hb.
    destruct (nth_error tot i) as [z|]; [|discriminate].
    destruct (nth_error (values df) i) as [row|]; [|discriminate].
    injection Hb as <-. eauto. }
  destruct (position pop_under5 (columns df)) as [q|] eqn:Hq.
  - (* the column exists: it is overwritten *)
    pose proof (position_Some _ _ _ Hpm) as Nm.
    pose proof (position_Some _ _ _ Hpf) as Nf.
    pose proof (position_Some _ _ _ Hq) as Nq.
    repeat split.
    + exact Hd.
    + apply Forall_forall. intros before Hin.
      apply In_nth_error in Hin as [i Hi].
      destruct (Hrow i before Hi) as [z [row [_ [Hr ->]]]].
      simpl. rewrite length_set_nth. apply Hfit. now apply nth_error_In in Hr.
    + now rewrite length_map, length_combine, El, Nat.min_id.
    + intros i before Hi.
      destruct (Hrow i before Hi) as [z [row [Hz [Hr ->]]]].
      destruct (Hms i row Hr) as [a [Ha Hra]].
      destruct (Hfs i row Hr) as [b [Hb Hrb]].
      destruct (Htot i a b Ha Hb) as [z' [Hz' Eadd]].
      assert (z' = z) by congruence. subst z'.
      exists a, b, z. unfold cell. cbn [columns set_cell].
      rewrite Hpm, Hpf, Hq.
      rewrite !nth_error_set_nth_neq by congruence.
      rewrite nth_error_set_nth_eq.
      * now repeat split.
      * rewrite (Hfit row) by now apply nth_error_In in Hr.
        now apply position_lt in Hq.
  - (* the column is new: it is added last *)
    assert (Hpop : mem pop_under5 (columns df) = false)
      by now apply position_None.
    repeat split.
    + now apply distinct_app_last.
    + apply Forall_forall. intros before Hin.
      apply In_nth_error in Hin as [i Hi].
      destruct (Hrow i before Hi) as [z [row [_ [Hr ->]]]].
      simpl. rewrite !length_app. simpl.
      rewrite (Hfit row) by now apply nth_error_In in Hr. reflexivity.
    + now rewrite length_map, length_combine, El, Nat.min_id.
    + intros i before Hi.
      destruct (Hrow i before Hi) as [z [row [Hz [Hr ->]]]].
      destruct (Hms i row Hr) as [a [Ha Hra]].
      destruct (Hfs i row Hr) as [b [Hb Hrb]].
      destruct (Htot i a b Ha Hb) as [z' [Hz' Eadd]].
      assert (z' = z) by congruence. subst z'.
      assert (Lrow : length row = length (columns df))
        by (apply Hfit; now apply nth_error_In in Hr).
      exists a, b, z. unfold cell. cbn [columns set_cell].
      rewrite (position_app_l _ _ _ _ Hpm), (position_app_l _ _ _ _ Hpf).
      rewrite (position_app_last _ _ Hpop).
      rewrite !nth_error_app1
        by (rewrite Lrow; eapply position_lt; eassumption).
      rewrite nth_error_app2 by lia.
      rewrite Lrow, Nat.sub_diag. now repeat split.
Qed.

(** ** Lines 38-44 on any frame *)

Lemma builtin_sum_Ok (col : list value) :
  builtin_sum col = Ok tt -> forall v, In v col -> exists n, v = VNum n.
Proof.
  induction col as [|[s|n] col IH]; simpl; intros E v Hv;
    [contradiction | discriminate |].
  destruct Hv as [<-|Hv]; eauto.
Qed.

Lemma checks_Ok (df : DataFrame) :
  checks df = Ok tt ->
  forall i row, nth_error (values df) i = Some row ->
    exists n, cell df row pop_under5 = Some (VNum n).
Proof.
  unfold checks. intros E. bind_inv E as col Ecol.
  apply getitem_Ok in Ecol as [_ [p [Hp [_ Hcol]]]].
  intros i row Hrow. destruct (Hcol i row Hrow) as [v [Hv Hrv]].
  destruct (builtin_sum_Ok col E v) as [n ->];
    [now apply nth_error_In in Hv|].
  exists n. unfold cell. now rewrite Hp.
Qed.

Lemma add_values_VNum (a b : value) (n : num) :
  add_values a b = Ok (VNum n) ->
  exists x y, a = VNum x /\ b = VNum y /\ n = num_add x y.
Proof.
  destruct a as [s|x], b as [t|y]; simpl; intros E; try discriminate.
  injection E as <-. eauto.
Qed.

Lemma Forall2_map_r_nth {A B : Type} (R : A -> B -> Prop) (f : A -> B)
    (l : list A) :
  (forall i x, nth_error l i = Some x -> R x (f x)) ->
  Forall2 R l (map f l).
Proof.
  induction l as [|a l IH]; intros HR; simpl; constructor.
  - exact (HR 0 a eq_refl).
  - apply IH. intros i x Hx. exact (HR (S i) x Hx).
Qed.

(** The steps of a run that reaches line 47. *)
Lemma transform_Ok (data : list (list string)) (final : DataFrame) :
  transform data = Ok final ->
  exists sh t,
    shaper data = Ok sh /\ add_total sh = Ok t /\
    drop_unneeded t = Ok final /\ checks final = Ok tt.
Proof.
  unfold transform, aggregator. intros E.
  bind_inv E as sh Esh. bind_inv E as df Eagg. bind_inv E as u Echk.
  injection E as <-. bind_inv Eagg as t Et.
  destruct u. exists sh, t. auto.
Qed.

Lemma shaper_rows_fit (data : list (list string)) (sh : DataFrame) :
  shaper data = Ok sh -> rows_fit sh.
Proof.
  intros E. apply shaper_Ok in E
    as [header [rows [_ [_ [Hcols [_ [_ Hrows]]]]]]].
  unfold rows_fit. rewrite Hcols, length_map.
  clear -Hrows. induction Hrows as [|row row' rows rs [Hlen _] _ IH];
    now constructor.
Qed.

(** What line 38 keeps of the row [before]. *)
Lemma drop_unneeded_Ok (t final : DataFrame) :
  drop_unneeded t = Ok final ->
  let keep := map (fun c => negb (mem c unneeded)) (columns t) in
  columns final = select keep (columns t) /\
  index final = index t /\
  values final = map (select keep) (values t).
Proof.
  unfold drop_unneeded, drop_columns.
  destruct (forallb _ unneeded); [|discriminate].
  intros [= <-]. cbn [columns index values]. auto.
Qed.

(** ** The fetcher *)

Lemma final_table_200 (response : Response) (data : list (list string)) :
  status_code response = 200%Z -> content response = Some data ->
  final_table response = transform data.
Proof.
  intros Hs Hc. unfold final_table, fetcher. now rewrite Hs, Hc.
Qed.

Lemma final_table_not_200 (response : Response) :
  status_code response <> 200%Z ->
  final_table response = Raise (NameError "data").
Proof.
  intros Hs. unfold final_table, fetcher.
  apply Z.eqb_neq in Hs. now rewrite Hs.
Qed.

Lemma final_table_Ok (response : Response) (final : DataFrame) :
  final_table response = Ok final ->
  exists data, status_code response = 200%Z /\
               content response = Some data /\ transform data = Ok final.
Proof.
  unfold final_table, fetcher. intros E.
  destruct (Z.eqb_spec (status_code response) 200) as [Hs|Hs];
    [|discriminate].
  destruct (content response) as [data|]; [|discriminate].
  exists data. auto.
Qed.

Lemma select_filter {A : Type} (f : A -> bool) (l : list A) :
  select (map f l) l = filter f l.
Proof.
  induction l as [|a l IH]; simpl; [reflexivity|].
  destruct (f a); now rewrite IH.
Qed.

(** ** The pipeline *)

(** C2. Every row of the final table holds, under [pop_under5], the sum of
    the numbers the same row held under [pop_under5_male] and
    [pop_under5_female] in the table before line 38 dropped these two
    columns. *)
Theorem total_is_sum (data : list (list string)) (final : DataFrame) :
  transform data = Ok final ->
  exists t,
    (df <- shaper data ;; add_total df) = Ok t /\
    drop_unneeded t = Ok final /\
    Forall2 (fun before row =>
               exists a b,
                 cell t before male = Some (VNum a) /\
                 cell t before female = Some (VNum b) /\
                 cell final row pop_under5 = Some (VNum (num_add a b)))
            (values t) (values final).
Proof.
  intros E. apply transform_Ok in E as [sh [t [Esh [Et [Edrop Echk]]]]].
  exists t. rewrite Esh. split; [exact Et|]. split; [exact Edrop|].
  pose proof (shaper_rows_fit _ _ Esh) as Hfit.
  destruct (add_total_Ok _ _ Hfit Et) as [Hd [Hfit' [_ [_ Hcells]]]].
  destruct (drop_unneeded_Ok _ _ Edrop) as [Hcols [_ Hvals]].
  rewrite Hvals. apply Forall2_map_r_nth. intros i before Hi.
  destruct (Hcells i before Hi) as [a [b [z [Ha [Hb [Hz Eadd]]]]]].
  (* the total survives line 38 *)
  unfold cell in Hz.
  destruct (position pop_under5 (columns t)) as [q|] eqn:Hq; [|discriminate].
  destruct (position_select_mask (fun c => negb (mem c unneeded))
              (columns t) pop_under5 q Hq eq_refl) as [q' [Hq' Hsel]].
  assert (Hfz : cell final
                  (select (map (fun c => negb (mem c unneeded)) (columns t))
                          before) pop_under5 = Some z).
  { unfold cell. rewrite Hcols, Hq', Hsel; [exact Hz|].
    unfold rows_fit in Hfit'. rewrite Forall_forall in Hfit'.
    apply Hfit'. now apply nth_error_In in Hi. }
  (* line 44 went through: the total is a number *)
  destruct (checks_Ok _ Echk i
              (select (map (fun c => negb (mem c unneeded)) (columns t))
                      before)) as [n Hn].
  { rewrite Hvals, nth_error_map, Hi. reflexivity. }
  assert (z = VNum n) by congruence. subst z.
  apply add_values_VNum in Eadd as [x [y [-> [-> ->]]]].
  exists x, y. auto.
Qed.

(** C3. When the status code of the response is not 200, the name [data]
    is never bound: the first statement that reads it, line 28, raises
    [NameError], the script ends there, and the file system is left as it
    was found. *)
Theorem not_200_raises_NameError (cwd : string) (response : Response)
    (fs : Posix.filesystem) :
  status_code response <> 200%Z ->
  fetcher response = Ok None /\
  main cwd response fs = (Raise (NameError "data"), fs).
Proof.
  intros Hs. unfold main. rewrite (final_table_not_200 _ Hs).
  split; [|reflexivity].
  unfold fetcher. apply Z.eqb_neq in Hs. now rewrite Hs.
Qed.

(** C4. On a successful fetch of a well-formed payload the final table has
    one row less than the payload: the header row. *)
Theorem row_count (response : Response) (data : list (list string)) :
  status_code response = 200%Z -> content response = Some data ->
  well_formed data = true ->
  exists final,
    final_table response = Ok final /\
    length (values final) = length data - 1.
Proof.
  intros Hs Hc Hwf. exists (expected data).
  rewrite (final_table_200 _ _ Hs Hc), (transform_well_formed _ Hwf).
  split; [reflexivity|].
  destruct data as [|[|c0 [|c1 geo]] rows]; try discriminate.
  simpl. rewrite length_map. lia.
Qed.

(** C5. On a well-formed payload none of [state], [pop_under5_male] and
    [pop_under5_female] labels a column of the final table, nor stands in
    the header record of the file. *)
Theorem unneeded_columns_absent (response : Response)
    (data : list (list string)) :
  status_code response = 200%Z -> content response = Some data ->
  well_formed data = true ->
  exists final,
    final_table response = Ok final /\
    forall name,
      In name ["state"; "pop_under5_male"; "pop_under5_female"] ->
      ~ In (LStr name) (columns final) /\
      ~ In name (hd [] (csv_records final)).
Proof.
  intros Hs Hc Hwf. exists (expected data).
  rewrite (final_table_200 _ _ Hs Hc), (transform_well_formed _ Hwf).
  split; [reflexivity|].
  destruct data as [|[|c0 [|c1 geo]] rows]; try discriminate.
  unfold well_formed in Hwf. rewrite !andb_true_iff in Hwf.
  destruct Hwf as [[[[_ _] Hres] _] _].
  intros name Hname.
  assert (Hgeo : ~ In name (retained geo geo)).
  { unfold retained. rewrite select_filter, filter_In. intros [Hin Hst].
    simpl in Hname. destruct Hname as [<-|Hname]; [discriminate|].
    rewrite forallb_forall in Hres. specialize (Hres name Hin).
    apply negb_true_iff in Hres.
    assert (existsb (String.eqb name) reserved = true); [|congruence].
    apply existsb_exists. exists name. split; [|apply String.eqb_refl].
    simpl. destruct Hname as [<-|[<-|[]]]; auto. }
  assert (Hpop : name <> "pop_under5").
  { simpl in Hname. destruct Hname as [<-|[<-|[<-|[]]]]; discriminate. }
  unfold csv_records, expected, expected_columns. cbn [columns hd].
  rewrite map_app, map_map. cbn [label_text map]. rewrite map_id.
  split; rewrite in_app_iff; intros [Hin|[Hin|[]]]; try congruence.
  apply in_map_iff in Hin as [g [[= ->] Hg]]. contradiction.
Qed.

Lemma mapM_all_Ok {A B : Type} (f : A -> res B) (l : list A) :
  (forall x, In x l -> exists y, f x = Ok y) -> exists r, mapM f l = Ok r.
Proof.
  induction l as [|a l IH]; simpl; intros Hf; [eauto|].
  destruct (Hf a (or_introl eq_refl)) as [y Ey]. rewrite Ey.
  destruct IH as [r Er]; [now auto|]. rewrite Er. simpl. eauto.
Qed.



Lemma read_write_file (path text : string) (fs : Posix.filesystem) :
  Posix.read_file (Posix.write_file path text fs) path = Some text.
Proof.
  unfold Posix.read_file, Posix.write_file. simpl.
  now rewrite String.eqb_refl.
Qed.

(** A run that ends normally wrote the text of its final table. *)
Lemma main_Ok (cwd : string) (response : Response)
    (fs fs' : Posix.filesystem) :
  main cwd response fs = (Ok tt, fs') ->
  exists final,
    final_table response = Ok final /\
    Posix.read_file fs' (output_path cwd) = Some (csv_text final).
Proof.
  unfold main, writer, to_csv.
  destruct (final_table response) as [final| |]; try discriminate.
  destruct (Posix.is_dir fs _); [|discriminate].
  intros [= <-]. exists final. split; [reflexivity|].
  apply read_write_file.
Qed.

(** C8. Two runs that fetched the same content and both wrote their file
    wrote the same bytes, whatever the working directories and the file
    systems they ran in. *)
Theorem same_content_same_bytes (cwd1 cwd2 : string)
    (r1 r2 : Response) (fs1 fs2 fs1' fs2' : Posix.filesystem) :
  content r1 = content r2 ->
  main cwd1 r1 fs1 = (Ok tt, fs1') ->
  main cwd2 r2 fs2 = (Ok tt, fs2') ->
  exists bytes,
    Posix.read_file fs1' (output_path cwd1) = Some bytes /\
    Posix.read_file fs2' (output_path cwd2) = Some bytes.
Proof.
  intros Hc E1 E2.
  apply main_Ok in E1 as [f1 [T1 R1]]. apply main_Ok in E2 as [f2 [T2 R2]].
  apply final_table_Ok in T1 as [d1 [_ [C1 T1]]].
  apply final_table_Ok in T2 as [d2 [_ [C2 T2]]].
  assert (d1 = d2) by congruence. subst d2.
  assert (f1 = f2) by congruence. subst f2.
  exists (csv_text f1). auto.
Qed.

(** C9. On a well-formed payload the rows of the final table are the data
    rows of the payload, in their order: row [i] of the table is made from
    data row [i], carries the row label [i + 1] it had in the payload, and
    the records of the file follow the same order. *)
Theorem row_order_preserved (c0 c1 : string) (geo : list string)
    (rows : list (list string)) :
  well_formed ((c0 :: c1 :: geo) :: rows) = true ->
  exists final,
    transform ((c0 :: c1 :: geo) :: rows) = Ok final /\
    index final = seq 1 (length rows) /\
    Forall2 (fun row frow =>
               exists a b cells x y,
                 row = a :: b :: cells /\
                 parse_number a = Ok x /\ parse_number b = Ok y /\
                 frow = retained geo (map VStr cells) ++ [VNum (num_add x y)])
            rows (values final) /\
    tl (csv_records final) = map (map value_text) (values final).
Proof.
  intros Hwf. exists (expected ((c0 :: c1 :: geo) :: rows)).
  split; [now apply transform_well_formed|].
  split; [reflexivity|]. split; [|reflexivity].
  unfold well_formed in Hwf. rewrite !andb_true_iff in Hwf.
  destruct Hwf as [_ Hrows].
  destruct (well_formed_rows_counted _ _ Hrows) as [ts Hts].
  cbn [expected values]. clear -Hts.
  induction Hts as [|row [[x y] cells] rows ts [Hc _] _ IH]; simpl;
    constructor; [|exact IH].
  unfold expected_row. rewrite Hc.
  apply counts_Some in Hc as [a [b [-> [Ea Eb]]]].
  exists a, b, cells, x, y. auto.
Qed.

(** C10. On a well-formed payload the columns of the final table, and the
    header record of the file, are the geography columns of the response
    header other than [state], in the order of the header, followed by
    [pop_under5] in the last place. *)
Theorem column_order (c0 c1 : string) (geo : list string)
    (rows : list (list string)) :
  well_formed ((c0 :: c1 :: geo) :: rows) = true ->
  exists final,
    transform ((c0 :: c1 :: geo) :: rows) = Ok final /\
    columns final
    = map LStr (filter (fun g => negb (String.eqb g "state")) geo)
      ++ [LStr "pop_under5"] /\
    hd [] (csv_records final)
    = filter (fun g => negb (String.eqb g "state")) geo ++ ["pop_under5"].
Proof.
  intros Hwf. exists (expected ((c0 :: c1 :: geo) :: rows)).
  split; [now apply transform_well_formed|].
  unfold csv_records, expected, expected_columns, retained.
  cbn [columns hd]. rewrite select_filter. split; [reflexivity|].
  rewrite map_app, map_map. cbn [label_text map]. now rewrite map_id.
Qed.

End Pipeline.

(** ** The file read back *)

Module CsvFacts.
Import Csv.

Lemma append_assoc (a b c : string) :
  ((a ++ b) ++ c = a ++ (b ++ c))%string.
Proof. induction a as [|x a IH]; simpl; [reflexivity | now rewrite IH]. Qed.

Lemma append_nil_r (a : string) : (a ++ EmptyString = a)%string.
Proof. induction a as [|x a IH]; simpl; [reflexivity | now rewrite IH]. Qed.

Lemma snoc_append (pre : string) (c : ascii) (f : string) :
  (snoc pre c ++ f = pre ++ String c f)%string.
Proof. unfold snoc. now rewrite append_assoc. Qed.

(** A field written without quotes is read character by character. *)
Lemma read_plain (f : string) (fs : list string) (pre text : string) :
  needs_quotes f = false ->
  read_from (Some (fs, pre, Unquoted)) (f ++ text)
  = read_from (Some (fs, (pre ++ f)%string, Unquoted)) text.
Proof.
  revert pre. induction f as [|c f IH]; intros pre Hq.
  - now rewrite append_nil_r.
  - simpl in Hq. apply orb_false_iff in Hq as [Hc Hq].
    unfold special in Hc. rewrite !orb_false_iff in Hc.
    destruct Hc as [[[Hd Hqc] Hlf] _].
    cbn [append read_from step]. rewrite Hlf, Hd, Hqc.
    rewrite (IH _ Hq), snoc_append. reflexivity.
Qed.

(** A field written between quotes is read up to its closing quote. *)
Lemma read_quoted (f : string) (fs : list string) (pre text : string) :
  read_from (Some (fs, pre, Quoted))
            (double_quotes f ++ String quotechar text)
  = read_from (Some (fs, (pre ++ f)%string, QuoteSeen)) text.
Proof.
  revert pre. induction f as [|c f IH]; intros pre.
  - rewrite append_nil_r. reflexivity.
  - cbn [double_quotes]. destruct (Ascii.eqb c quotechar) eqn:Ec.
    + apply Ascii.eqb_eq in Ec. subst c.
      cbn [append read_from step]. rewrite Ascii.eqb_refl.
      cbn [read_from step]. rewrite Ascii.eqb_refl.
      rewrite IH, snoc_append. reflexivity.
    + cbn [append read_from step]. rewrite Ec.
      rewrite IH, snoc_append. reflexivity.
Qed.

Lemma read_field (f : string) (fs : list string) (text : string) :
  read_from (Some (fs, EmptyString, Unquoted)) (field f ++ text)
  = read_from (Some (fs, f, closed f)) text.
Proof.
  unfold field, closed. destruct (needs_quotes f) eqn:Hq.
  - cbn [append]. rewrite append_assoc. cbn [append read_from step].
    change (Ascii.eqb quotechar LF) with false.
    change (Ascii.eqb quotechar delimiter) with false.
    rewrite Ascii.eqb_refl. now rewrite read_quoted.
  - now rewrite read_plain.
Qed.

Lemma read_first_field (f : string) (text : string) :
  f <> EmptyString \/ (exists text', text = String delimiter text') ->
  read_from None (field f ++ text)
  = read_from (Some ([], f, closed f)) text.
Proof.
  intros Hf. unfold field, closed. destruct (needs_quotes f) eqn:Hq.
  - cbn [append]. rewrite append_assoc. cbn [append read_from step].
    change (Ascii.eqb quotechar LF) with false.
    rewrite Ascii.eqb_refl. now rewrite read_quoted.
  - destruct f as [|c f].
    + destruct Hf as [Hf|[text' ->]]; [congruence|]. reflexivity.
    + simpl in Hq. apply orb_false_iff in Hq as [Hc Hq].
      unfold special in Hc. rewrite !orb_false_iff in Hc.
      destruct Hc as [[[Hd Hqc] Hlf] _].
      cbn [append read_from step]. rewrite Hlf, Hqc, Hd.
      now rewrite read_plain.
Qed.

Lemma closed_not_Quoted (f : string) : closed f <> Quoted.
Proof. unfold closed. destruct (needs_quotes f); discriminate. Qed.

Lemma join_fields (f : string) (rest : list string) :
  join (String delimiter EmptyString) (map field (f :: rest))
  = (field f ++ more_fields rest)%string.
Proof.
  revert f. induction rest as [|g rest IH]; intros f.
  - simpl. now rewrite append_nil_r.
  - change (join (String delimiter EmptyString) (map field (f :: g :: rest)))
      with (field f ++ String delimiter EmptyString
            ++ join (String delimiter EmptyString)
                    (map field (g :: rest)))%string.
    rewrite IH. reflexivity.
Qed.

Lemma read_rest (rest fs : list string) (f : string) (m : mode)
    (text : string) :
  m <> Quoted ->
  read_from (Some (fs, f, m)) (more_fields rest ++ lineterminator ++ text)
  = option_map (cons (fs ++ f :: rest)) (read_from None text).
Proof.
  revert fs f m. induction rest as [|g rest IH]; intros fs f m Hm.
  - destruct m; [|congruence|]; reflexivity.
  - cbn [more_fields append].
    assert (E : read_from (Some (fs, f, m))
                  (String delimiter
                     ((field g ++ more_fields rest)
                      ++ lineterminator ++ text))
                = read_from (Some (fs ++ [f], EmptyString, Unquoted))
                    ((field g ++ more_fields rest)
                     ++ lineterminator ++ text))
      by (destruct m; [|congruence|]; reflexivity).
    rewrite E, append_assoc, read_field, (IH _ _ _ (closed_not_Quoted g)).
    now rewrite <- app_assoc.
Qed.

(** One record written, one record read. *)
Lemma read_record (fields : list string) (text : string) :
  read_from None (writerow fields ++ text)
  = option_map (cons fields) (read_from None text).
Proof.
  assert (Hgen : forall f rest,
    f <> EmptyString \/ rest <> [] ->
    read_from None
      ((join (String delimiter EmptyString) (map field (f :: rest))
        ++ lineterminator) ++ text)
    = option_map (cons (f :: rest)) (read_from None text)).
  { intros f rest Hf. rewrite join_fields, !append_assoc.
    rewrite read_first_field.
    - now rewrite (read_rest rest [] f _ text (closed_not_Quoted f)).
    - destruct Hf as [Hf|Hr]; [now left|].
      destruct rest as [|g rest]; [congruence|]. right. simpl. eauto. }
  destruct fields as [|f rest]; [reflexivity|].
  destruct f as [|c f].
  - destruct rest as [|g rest]; [reflexivity|].
    apply Hgen. right. discriminate.
  - destruct rest as [|g rest]; apply Hgen; left; discriminate.
Qed.

(** Whatever the fields hold, the text [writerows] writes reads back as
    the records written. *)
Lemma read_writerows (records : list (list string)) :
  read (writerows records) = Some records.
Proof.
  unfold read. induction records as [|r records IH]; [reflexivity|].
  cbn [writerows]. now rewrite read_record, IH.
Qed.

End CsvFacts.

(** ** The path of the file *)

Module PosixFacts.
Import Posix.

Lemma endswith_sep_append (a b : string) :
  b <> EmptyString -> endswith_sep (a ++ b) = endswith_sep b.
Proof.
  intros Hb. induction a as [|c a IH]; [reflexivity|].
  cbn [append]. change (endswith_sep (String c (a ++ b)))
    with (match (a ++ b)%string with
          | EmptyString => Ascii.eqb c sep
          | String _ _ => endswith_sep (a ++ b)
          end).
  destruct (a ++ b)%string eqn:E; [|exact IH].
  destruct a; simpl in E; congruence.
Qed.

Lemma head_upto_sep_append (a b : string) :
  head_upto_sep (a ++ String sep b)
  = (a ++ String sep (head_upto_sep b))%string.
Proof.
  induction a as [|c a IH]; cbn [append head_upto_sep].
  - rewrite Ascii.eqb_refl. now destruct (head_upto_sep b).
  - rewrite IH. now destruct a.
Qed.

Lemma rstrip_sep_append (a b : string) :
  rstrip_sep b <> EmptyString ->
  rstrip_sep (a ++ b) = (a ++ rstrip_sep b)%string.
Proof.
  intros Hb. induction a as [|c a IH]; [reflexivity|].
  cbn [append rstrip_sep]. rewrite IH.
  destruct (a ++ rstrip_sep b)%string eqn:E; [|reflexivity].
  destruct a; simpl in E; congruence.
Qed.



End PosixFacts.

Section Writer.
Context `{Numeric}.


End Writer.

(** ** 64-bit integers *)

(** Away from the ends of the range the sum is the sum of the integers. *)
Lemma Int64_add_exact (a b : Z) :
  Int64.in_range (a + b) = true -> Int64.add a b = (a + b)%Z.
Proof.
  unfold Int64.in_range, Int64.add, Int64.wrap.
  rewrite andb_true_iff, Z.leb_le, Z.ltb_lt. intros [Hlo Hhi].
  rewrite Z.mod_small; lia.
Qed.

(** A number that [to_csv] wrote is read back by [pd.to_numeric]. *)
Lemma Int64_parse_repr (z : Z) :
  Int64.in_range z = true -> Int64.parse (str_of_int z) = Ok z.
Proof.
  intros Hz. unfold Int64.parse, str_of_int.
  rewrite NilZero.isi.
  - now rewrite DecimalZ.of_to, Hz.
  - destruct z; simpl; try discriminate.
    intros [= E]. now apply DecimalPos.Unsigned.to_uint_nonnil in E.
  - destruct z; simpl; try discriminate.
    intros [= E]. now apply DecimalPos.Unsigned.to_uint_nonnil in E.
Qed.

(** ** The fixture of the specification, on 64-bit integers *)

(** C1. On the fixture of the specification, lines 28-38 produce the two
    rows [(state_leg_district = 001, pop_under5 = 30)] and
    [(state_leg_district = 002, pop_under5 = 12)], the checks of lines
    41-44 pass, and the records of the file are these two rows under their
    header. *)
Theorem fixture_output :
  (df <- shaper fixture ;; aggregator df) = Ok fixture_table /\
  transform fixture = Ok fixture_table /\
  csv_records fixture_table
  = [["state_leg_district"; "pop_under5"]; ["001"; "30"]; ["002"; "12"]].
Proof. repeat split; vm_compute; reflexivity. Qed.

Lemma total_is_sum_witness :
  transform fixture = Ok fixture_table /\
  exists t,
    (df <- shaper fixture ;; add_total df) = Ok t /\
    drop_unneeded t = Ok fixture_table /\
    Forall2 (fun before row =>
               exists a b,
                 cell t before (LStr "pop_under5_male") = Some (VNum a) /\
                 cell t before (LStr "pop_under5_female") = Some (VNum b) /\
                 cell fixture_table row (LStr "pop_under5")
                 = Some (VNum (num_add a b)))
            (values t) (values fixture_table).
Proof.
  split; [reflexivity|].
  apply (total_is_sum fixture fixture_table). reflexivity.
Defined.

Lemma not_200_raises_NameError_witness :
  status_code (mkResponse 404 None) <> 200%Z /\
  fetcher (mkResponse 404 None) = Ok None /\
  main "/home/user" (mkResponse 404 None) empty_fs
  = (Raise (NameError "data"), empty_fs).
Proof.
  split; [discriminate|].
  apply (not_200_raises_NameError "/home/user" (mkResponse 404 None) empty_fs).
  discriminate.
Defined.

Lemma row_count_witness :
  status_code (mkResponse 200 (Some fixture)) = 200%Z /\
  content (mkResponse 200 (Some fixture)) = Some fixture /\
  well_formed fixture = true /\
  exists final,
    final_table (mkResponse 200 (Some fixture)) = Ok final /\
    length (values final) = length fixture - 1.
Proof.
  repeat split; try reflexivity.
  apply (row_count (mkResponse 200 (Some fixture)) fixture); reflexivity.
Defined.

Lemma unneeded_columns_absent_witness :
  status_code (mkResponse 200 (Some fixture)) = 200%Z /\
  content (mkResponse 200 (Some fixture)) = Some fixture /\
  well_formed fixture = true /\
  exists final,
    final_table (mkResponse 200 (Some fixture)) = Ok final /\
    forall name,
      In name ["state"; "pop_under5_male"; "pop_under5_female"] ->
      ~ In (LStr name) (columns final) /\
      ~ In name (hd [] (csv_records final)).
Proof.
  repeat split; try reflexivity.
  apply (unneeded_columns_absent (mkResponse 200 (Some fixture)) fixture);
    reflexivity.
Defined.



Lemma same_content_same_bytes_witness :
  content (mkResponse 200 (Some fixture))
  = content (mkResponse 200 (Some fixture)) /\
  main "/home/user" (mkResponse 200 (Some fixture)) empty_fs
  = (Ok tt, snd (main "/home/user" (mkResponse 200 (Some fixture)) empty_fs))
  /\
  main "/srv/acs" (mkResponse 200 (Some fixture)) empty_fs
  = (Ok tt, snd (main "/srv/acs" (mkResponse 200 (Some fixture)) empty_fs))
  /\
  exists bytes,
    Posix.read_file
      (snd (main "/home/user" (mkResponse 200 (Some fixture)) empty_fs))
      (output_path "/home/user") = Some bytes /\
    Posix.read_file
      (snd (main "/srv/acs" (mkResponse 200 (Some fixture)) empty_fs))
      (output_path "/srv/acs") = Some bytes.
Proof.
  split; [reflexivity|]. split; [reflexivity|]. split; [reflexivity|].
  apply (same_content_same_bytes "/home/user" "/srv/acs"
           (mkResponse 200 (Some fixture)) (mkResponse 200 (Some fixture))
           empty_fs empty_fs); reflexivity.
Defined.

Lemma row_order_preserved_witness :
  well_formed fixture = true /\
  exists final,
    transform fixture = Ok final /\
    index final = seq 1 (length (tl fixture)) /\
    Forall2 (fun row frow =>
               exists a b cells x y,
                 row = a :: b :: cells /\
                 parse_number a = Ok x /\ parse_number b = Ok y /\
                 frow = retained ["state_leg_district"; "state"]
                                 (map VStr cells)
                        ++ [VNum (num_add x y)])
            (tl fixture) (values final) /\
    tl (csv_records final) = map (map value_text) (values final).
Proof.
  split; [reflexivity|].
  apply (row_order_preserved "B01001_003E" "B01001_027E"
           ["state_leg_district"; "state"] (tl fixture)).
  reflexivity.
Defined.

Lemma column_order_witness :
  well_formed fixture = true /\
  exists final,
    transform fixture = Ok final /\
    columns final
    = map LStr (filter (fun g => negb (String.eqb g "state"))
                       ["state_leg_district"; "state"])
      ++ [LStr "pop_under5"] /\
    hd [] (csv_records final)
    = filter (fun g => negb (String.eqb g "state"))
             ["state_leg_district"; "state"] ++ ["pop_under5"].
Proof.
  split; [reflexivity|].
  apply (column_order "B01001_003E" "B01001_027E"
           ["state_leg_district"; "state"] (tl fixture)).
  reflexivity.
Defined.

(** * Further properties of the script *)

(** ** What a run does to the file system *)


Lemma filter_twice {A : Type} (f : A -> bool) (l : list A) :
  filter f (filter f l) = filter f l.
Proof.
  induction l as [|a l IH]; [reflexivity|]. simpl.
  destruct (f a) eqn:Ef; simpl; rewrite ?Ef, IH; reflexivity.
Qed.


Lemma write_file_twice (path text : string) (fs : Posix.filesystem) :
  Posix.write_file path text (Posix.write_file path text fs)
  = Posix.write_file path text fs.
Proof.
  unfold Posix.write_file. cbn [Posix.files Posix.is_dir filter fst].
  rewrite String.eqb_refl. cbn [negb]. now rewrite filter_twice.
Qed.

Section Runs.
Context `{Numeric}.

#[local] Abbreviation male := (LStr "pop_under5_male").
#[local] Abbreviation female := (LStr "pop_under5_female").
#[local] Abbreviation pop_under5 := (LStr "pop_under5").

(** How a run ends, and what it leaves, read off [main]. *)
Lemma main_cases (cwd : string) (response : Response)
    (fs fs' : Posix.filesystem) (r : res unit) :
  main cwd response fs = (r, fs') ->
  (r <> Ok tt /\ fs' = fs) \/
  (r = Ok tt /\
   Posix.is_dir fs (Posix.dirname (output_path cwd)) = true /\
   exists final,
     final_table response = Ok final /\
     fs' = Posix.write_file (output_path cwd) (csv_text final) fs).
Proof.
  unfold main, writer, to_csv.
  destruct (final_table response) as [final|e|].
  - destruct (Posix.is_dir fs _) eqn:Hdir; intros [= <- <-].
    + right. eauto.
    + left. split; [discriminate | reflexivity].
  - intros [= <- <-]. left. split; [discriminate | reflexivity].
  - intros [= <- <-]. left. split; [discriminate | reflexivity].
Qed.


(** X2. Running the script again on the file system a successful run left,
    with the same response, succeeds again and leaves that file system as
    it is: the file is replaced by the same text, not appended to. *)
Theorem rerun_changes_nothing (cwd : string) (response : Response)
    (fs fs' : Posix.filesystem) :
  main cwd response fs = (Ok tt, fs') ->
  main cwd response fs' = (Ok tt, fs').
Proof.
  intros E. apply main_cases in E
    as [[Hr _]|[_ [Hdir [final [Hfinal ->]]]]]; [congruence|].
  unfold main, writer, to_csv. rewrite Hfinal.
  cbn [Posix.write_file Posix.is_dir]. rewrite Hdir.
  f_equal. apply write_file_twice.
Qed.

(** X3. An empty payload (status 200, the JSON array without any row) has
    no header row: line 29 raises [IndexError] on [df.iloc[0]], whatever
    the working directory, and nothing is written. *)
Theorem empty_payload_IndexError (cwd : string) (response : Response)
    (fs : Posix.filesystem) :
  status_code response = 200%Z ->
  content response = Some [] ->
  to_dataframe [] = Raise IndexError /\
  main cwd response fs = (Raise IndexError, fs).
Proof.
  intros Hs Hc. split; [reflexivity|].
  unfold main. now rewrite (final_table_200 _ _ Hs Hc).
Qed.

(** ** Row by row through lines 32-44 *)

Lemma Forall2_nth {A B : Type} (R : A -> B -> Prop) (l : list A)
    (r : list B) (i : nat) (x : A) :
  Forall2 R l r -> nth_error l i = Some x ->
  exists y, nth_error r i = Some y /\ R x y.
Proof.
  intros HR. revert i. induction HR as [|a b l r Hab _ IH]; intros i Hx.
  - destruct i; discriminate.
  - destruct i as [|i]; simpl in *.
    + injection Hx as <-. eauto.
    + now apply IH.
Qed.

Lemma Forall2_combine_map {A B C : Type} (R : B -> C -> Prop)
    (f : A * B -> C) (zs : list A) (rows : list B) :
  length zs = length rows ->
  (forall i z row, nth_error zs i = Some z -> nth_error rows i = Some row ->
                   R row (f (z, row))) ->
  Forall2 R rows (map f (combine zs rows)).
Proof.
  revert zs. induction rows as [|row rows IH]; intros [|z zs] Hlen HR;
    try discriminate; simpl; constructor.
  - exact (HR 0 z row eq_refl eq_refl).
  - apply IH; [simpl in Hlen; lia|].
    intros i z' row' Hz Hrow. exact (HR (S i) z' row' Hz Hrow).
Qed.

Lemma position_app_None (l k : label) (xs : list label) :
  position l xs = None -> l <> k -> position l (xs ++ [k]) = None.
Proof.
  intros Hp Hlk. apply position_None. apply position_None in Hp.
  apply mem_false. rewrite in_app_iff. intros [Hin|[->|[]]].
  - apply mem_In in Hin. congruence.
  - congruence.
Qed.

(** Line 35 adds one column, unless the frame has a [pop_under5] column
    already. *)
Lemma add_total_columns (df t : DataFrame) :
  add_total df = Ok t ->
  columns t
  = columns df ++ (if mem pop_under5 (columns df) then [] else [pop_under5]).
Proof.
  unfold add_total. intros E.
  bind_inv E as ms Ems. bind_inv E as fs Efs. bind_inv E as tot Etot.
  unfold setitem in E. destruct (distinct (columns df)); [|discriminate].
  destruct (Nat.eqb _ _); [|discriminate]. injection E as <-.
  cbn [columns].
  destruct (position pop_under5 (columns df)) as [q|] eqn:Hq.
  - destruct (mem pop_under5 (columns df)) eqn:Hm.
    + now rewrite app_nil_r.
    + apply position_None in Hm. congruence.
  - apply position_None in Hq. now rewrite Hq.
Qed.

(** Line 35, row by row: the new cell is the sum of the two counts of the
    row, and every other cell is left as it was. *)
Lemma add_total_rows (df t : DataFrame) :
  rows_fit df -> add_total df = Ok t ->
  Forall2 (fun row before =>
             exists a b z,
               cell df row male = Some a /\ cell df row female = Some b /\
               add_values a b = Ok z /\
               cell t before pop_under5 = Some z /\
               forall key, key <> pop_under5 ->
                           cell t before key = cell df row key)
          (values df) (values t).
Proof.
  intros Hfit E. unfold add_total in E.
  bind_inv E as ms Ems. bind_inv E as fs Efs. bind_inv E as tot Etot.
  apply getitem_Ok in Ems as [Hd [pm [Hpm [Lms Hms]]]].
  apply getitem_Ok in Efs as [_ [pf [Hpf [Lfs Hfs]]]].
  apply add_series_Ok in Etot as [Ltot Htot].
  unfold setitem in E. rewrite Hd in E.
  destruct (Nat.eqb (length tot) (length (values df))) eqn:El; [|discriminate].
  apply Nat.eqb_eq in El. injection E as <-. cbn [columns values index].
  unfold rows_fit in Hfit. rewrite Forall_forall in Hfit.
  apply Forall2_combine_map; [exact El|].
  intros i z row Hz Hr.
  destruct (Hms i row Hr) as [a [Ha Hra]].
  destruct (Hfs i row Hr) as [b [Hb Hrb]].
  destruct (Htot i a b Ha Hb) as [z' [Hz' Eadd]].
  assert (z' = z) by congruence. subst z'.
  assert (Lrow : length row = length (columns df))
    by (apply Hfit; now apply nth_error_In in Hr).
  exists a, b, z. cbn [fst snd].
  split; [unfold cell; now rewrite Hpm|].
  split; [unfold cell; now rewrite Hpf|].
  split; [exact Eadd|].
  unfold cell. cbn [columns].
  destruct (position pop_under5 (columns df)) as [q|] eqn:Hq; cbn [set_cell].
  - rewrite Hq. split.
    + apply nth_error_set_nth_eq. rewrite Lrow. now apply position_lt in Hq.
    + intros key Hkey.
      destruct (position key (columns df)) as [k|] eqn:Hk; [|reflexivity].
      apply nth_error_set_nth_neq. intros ->.
      apply position_Some in Hq, Hk. congruence.
  - assert (Hpop : mem pop_under5 (columns df) = false)
      by now apply position_None.
    rewrite (position_app_last _ _ Hpop). split.
    + rewrite nth_error_app2 by lia. now rewrite Lrow, Nat.sub_diag.
    + intros key Hkey.
      destruct (position key (columns df)) as [k|] eqn:Hk.
      * rewrite (position_app_l _ _ _ _ Hk).
        apply nth_error_app1. rewrite Lrow. now apply position_lt in Hk.
      * now rewrite (position_app_None _ _ _ Hk Hkey).
Qed.

(** Line 38, row by row: a cell under a label that is not dropped is found
    again under that label. *)
Lemma drop_unneeded_cell (t final : DataFrame) (before : list value)
    (key : label) :
  drop_unneeded t = Ok final ->
  length before = length (columns t) ->
  mem key unneeded = false ->
  cell final
       (select (map (fun c => negb (mem c unneeded)) (columns t)) before) key
  = cell t before key.
Proof.
  intros E Hlen Hkey. destruct (drop_unneeded_Ok _ _ E) as [Hcols _].
  unfold cell. rewrite Hcols.
  destruct (position key (columns t)) as [p|] eqn:Hp.
  - destruct (position_select_mask (fun c => negb (mem c unneeded))
                (columns t) key p Hp) as [q [Hq Hsel]];
      [now rewrite Hkey|].
    rewrite Hq. now apply Hsel.
  - replace (position key (select _ (columns t))) with (@None nat);
      [reflexivity|].
    symmetry. apply position_None, mem_false.
    rewrite In_select_mask. intros [Hin _].
    apply position_None in Hp. apply mem_In in Hin. congruence.
Qed.

(** A run that reaches line 47, followed row by row from the payload to
    the final table. *)
Lemma transform_rows (header : list string) (rows : list (list string))
    (final : DataFrame) :
  transform (header :: rows) = Ok final ->
  exists sh t,
    shaper (header :: rows) = Ok sh /\ add_total sh = Ok t /\
    drop_unneeded t = Ok final /\
    columns sh = map renamed header /\ distinct (columns sh) = true /\
    forall i row, nth_error rows i = Some row ->
      exists srow before,
        nth_error (values sh) i = Some srow /\
        nth_error (values t) i = Some before /\
        nth_error (values final) i
        = Some (select (map (fun c => negb (mem c unneeded)) (columns t))
                       before) /\
        length row = length header /\
        length before = length (columns t) /\
        (forall j s, nth_error row j = Some s ->
           exists v, nth_error srow j = Some v /\ converted j s v) /\
        (exists x y,
           cell sh srow male = Some (VNum x) /\
           cell sh srow female = Some (VNum y) /\
           cell t before pop_under5 = Some (VNum (num_add x y))) /\
        (forall key, key <> pop_under5 ->
                     cell t before key = cell sh srow key).
Proof.
  intros E. apply transform_Ok in E as [sh [t [Esh [Et [Edrop Echk]]]]].
  exists sh, t. split; [exact Esh|]. split; [exact Et|].
  split; [exact Edrop|].
  pose proof (shaper_rows_fit _ _ Esh) as Hfit.
  destruct (shaper_Ok _ _ Esh)
    as [header' [rows' [[= <- <-] [Hlen [Hcols [Hd [_ Hrows]]]]]]].
  split; [exact Hcols|]. split; [exact Hd|].
  pose proof (add_total_rows _ _ Hfit Et) as Hadd.
  destruct (add_total_Ok _ _ Hfit Et) as [_ [Hfit' _]].
  destruct (drop_unneeded_Ok _ _ Edrop) as [_ [_ Hvals]].
  intros i row Hrow.
  destruct (Forall2_nth _ _ _ i row Hrows Hrow) as [srow [Hsrow [_ Hconv]]].
  destruct (Forall2_nth _ _ _ i srow Hadd Hsrow)
    as [before [Hbefore [a [b [z [Ha [Hb [Eadd [Hz Hkeep]]]]]]]]].
  assert (Lbefore : length before = length (columns t)).
  { unfold rows_fit in Hfit'. rewrite Forall_forall in Hfit'.
    apply Hfit'. now apply nth_error_In in Hbefore. }
  assert (Hfrow : nth_error (values final) i
                  = Some (select (map (fun c => negb (mem c unneeded))
                                      (columns t)) before))
    by now rewrite Hvals, nth_error_map, Hbefore.
  exists srow, before. split; [exact Hsrow|]. split; [exact Hbefore|].
  split; [exact Hfrow|].
  split; [rewrite Forall_forall in Hlen; apply Hlen;
          now apply nth_error_In in Hrow|].
  split; [exact Lbefore|]. split; [exact Hconv|]. split; [|exact Hkeep].
  destruct (checks_Ok _ Echk i _ Hfrow) as [n Hn].
  rewrite (drop_unneeded_cell t final before pop_under5 Edrop Lbefore eq_refl)
    in Hn.
  assert (z = VNum n) by congruence. subst z.
  apply add_values_VNum in Eadd as [x [y [-> [-> ->]]]].
  exists x, y. auto.
Qed.

End Runs.

(** ** Payloads that are not as the query expects *)

Section Edges.
Context `{Numeric}.

#[local] Abbreviation male := (LStr "pop_under5_male").
#[local] Abbreviation female := (LStr "pop_under5_female").
#[local] Abbreviation pop_under5 := (LStr "pop_under5").

(** Which header cell ends up as a given label. *)
Lemma renamed_inv (s x : string) :
  renamed s = LStr x ->
  (s = "B01001_003E" /\ x = "pop_under5_male") \/
  (s = "B01001_027E" /\ x = "pop_under5_female") \/
  s = x.
Proof.
  unfold renamed, variables. cbn [assoc].
  destruct (String.eqb_spec s "B01001_003E") as [->|_];
    [intros [= <-]; auto|].
  destruct (String.eqb_spec s "B01001_027E") as [->|_];
    intros [= <-]; auto.
Qed.

Lemma getitem_missing (key : label) (df : DataFrame) :
  distinct (columns df) = true -> mem key (columns df) = false ->
  getitem key df = Raise KeyError.
Proof.
  intros Hd Hm. unfold getitem. apply position_None in Hm.
  now rewrite Hd, Hm.
Qed.

Lemma getitem_present (key : label) (df : DataFrame) :
  distinct (columns df) = true -> rows_fit df ->
  mem key (columns df) = true ->
  exists col, getitem key df = Ok col.
Proof.
  intros Hd Hfit Hm. unfold getitem. rewrite Hd.
  destruct (position key (columns df)) as [p|] eqn:Hp;
    [|apply position_None in Hp; congruence].
  apply mapM_all_Ok. intros row Hrow.
  unfold rows_fit in Hfit. rewrite Forall_forall in Hfit.
  destruct (nth_error row p) as [v|] eqn:Hv; [eauto|].
  apply nth_error_None in Hv. apply position_lt in Hp.
  rewrite (Hfit row Hrow) in Hv. lia.
Qed.

(** X4. A payload without a [state] column goes through lines 28-35 like
    any other, and then line 38 raises [KeyError]: [drop] refuses a label
    that no column carries.  Nothing is written. *)
Theorem missing_state_KeyError (cwd : string) (response : Response)
    (fs : Posix.filesystem) (header : list string)
    (rows : list (list string)) :
  status_code response = 200%Z ->
  content response = Some (header :: rows) ->
  (exists t, (df <- shaper (header :: rows) ;; add_total df) = Ok t) ->
  ~ In "state" header ->
  transform (header :: rows) = Raise KeyError /\
  main cwd response fs = (Raise KeyError, fs).
Proof.
  intros Hs Hc [t Et] Hstate.
  bind_inv Et as sh Esh.
  assert (E : transform (header :: rows) = Raise KeyError).
  { unfold transform, aggregator. rewrite Esh. cbn [bind]. rewrite Et.
    cbn [bind].
    assert (Hm : mem (LStr "state") (columns t) = false).
    { apply mem_false. rewrite (add_total_columns _ _ Et).
      destruct (shaper_Ok _ _ Esh)
        as [header' [rows' [[= <- <-] [_ [Hcols _]]]]].
      rewrite Hcols, in_app_iff. intros [Hin|Hin].
      - apply in_map_iff in Hin as [s [Hr Hin]].
        apply renamed_inv in Hr as [[_ Hx]|[[_ Hx]| ->]];
          [discriminate | discriminate | contradiction].
      - destruct (mem pop_under5 (map renamed header));
          [contradiction | destruct Hin as [[=]|[]]]. }
    unfold drop_unneeded, drop_columns, unneeded. cbn [forallb].
    now rewrite Hm. }
  split; [exact E|].
  unfold main. now rewrite (final_table_200 _ _ Hs Hc), E.
Qed.

(** X5. When the header names neither a variable code nor the name the
    script gives it, for either of the two variables, line 35 raises
    [KeyError] on the column it looks up, provided line 32 went through.
    Nothing is written. *)
Theorem missing_variable_KeyError (cwd : string) (response : Response)
    (fs : Posix.filesystem) (header : list string)
    (rows : list (list string)) :
  status_code response = 200%Z ->
  content response = Some (header :: rows) ->
  (exists sh, shaper (header :: rows) = Ok sh) ->
  (~ In "B01001_003E" header /\ ~ In "pop_under5_male" header) \/
  (~ In "B01001_027E" header /\ ~ In "pop_under5_female" header) ->
  transform (header :: rows) = Raise KeyError /\
  main cwd response fs = (Raise KeyError, fs).
Proof.
  intros Hs Hc [sh Esh] Hmiss.
  assert (E : transform (header :: rows) = Raise KeyError).
  { unfold transform, aggregator, add_total. rewrite Esh. cbn [bind].
    pose proof (shaper_rows_fit _ _ Esh) as Hfit.
    destruct (shaper_Ok _ _ Esh)
      as [header' [rows' [[= <- <-] [_ [Hcols [Hd _]]]]]].
    assert (Hno : forall code name,
              ~ In code header -> ~ In name header ->
              (forall s, renamed s = LStr name -> s = code \/ s = name) ->
              mem (LStr name) (columns sh) = false).
    { intros code name Hcode Hname Hinv. apply mem_false. rewrite Hcols.
      intros Hin. apply in_map_iff in Hin as [s [Hr Hin]].
      destruct (Hinv s Hr) as [->| ->]; contradiction. }
    destruct (mem male (columns sh)) eqn:Hm.
    - destruct Hmiss as [[Hcode Hname]|[Hcode Hname]].
      + rewrite (Hno _ _ Hcode Hname) in Hm; [discriminate|].
        intros s Hr. apply renamed_inv in Hr as [[-> _]|[[_ Hx]| ->]];
          [auto | discriminate | auto].
      + destruct (getitem_present male sh Hd Hfit Hm) as [ms Ems].
        rewrite Ems. cbn [bind].
        rewrite getitem_missing; [reflexivity | exact Hd |].
        apply (Hno _ _ Hcode Hname).
        intros s Hr. apply renamed_inv in Hr as [[_ Hx]|[[-> _]| ->]];
          [discriminate | auto | auto].
    - now rewrite (getitem_missing male sh Hd Hm). }
  split; [exact E|].
  unfold main. now rewrite (final_table_200 _ _ Hs Hc), E.
Qed.

(** X6. A run on a payload with at least one data row reaches line 47
    only if the two variables are the first two columns of the payload, in
    either order: elsewhere the counts stay strings, and the sum of line 35
    or the check of line 44 raises [TypeError] instead of letting
    concatenated digits through. *)
Theorem counts_are_first_two_columns (header : list string)
    (rows : list (list string)) (final : DataFrame) :
  transform (header :: rows) = Ok final ->
  rows <> [] ->
  exists h0 h1 geo,
    header = h0 :: h1 :: geo /\
    ((renamed h0 = male /\ renamed h1 = female) \/
     (renamed h0 = female /\ renamed h1 = male)).
Proof.
  intros E Hrows.
  destruct (transform_rows _ _ _ E)
    as [sh [t [_ [_ [_ [Hcols [Hd Hrow]]]]]]].
  destruct rows as [|row rows]; [congruence|].
  destruct (Hrow 0 row eq_refl)
    as [srow [before [_ [_ [_ [Lrow [_ [Hconv [[x [y [Hx [Hy _]]]] _]]]]]]]]].
  assert (Hpos : forall key n,
            cell sh srow key = Some (VNum n) ->
            exists p, p < 2 /\ nth_error (map renamed header) p = Some key).
  { intros key n Hkey. unfold cell in Hkey.
    destruct (position key (columns sh)) as [p|] eqn:Hp; [|discriminate].
    exists p. split; [|rewrite <- Hcols; now apply position_Some].
    apply position_lt in Hp. rewrite Hcols, length_map, <- Lrow in Hp.
    destruct (nth_error row p) as [s|] eqn:Hs;
      [|apply nth_error_None in Hs; lia].
    destruct (Hconv p s Hs) as [v [Hv Hc]].
    assert (v = VNum n) by congruence. subst v.
    unfold converted in Hc. destruct (Nat.ltb p 2) eqn:Ep.
    - now apply Nat.ltb_lt.
    - discriminate. }
  destruct (Hpos male x Hx) as [pm [Lm Nm]].
  destruct (Hpos female y Hy) as [pf [Lf Nf]].
  destruct header as [|h0 [|h1 geo]].
  - destruct pm; discriminate.
  - destruct pm as [|[|pm]], pf as [|[|pf]]; cbn [nth_error map] in Nm, Nf;
      try discriminate; try lia.
    rewrite Nm in Nf. discriminate.
  - exists h0, h1, geo. split; [reflexivity|].
    destruct pm as [|[|pm]], pf as [|[|pf]]; cbn [nth_error map] in Nm, Nf;
      try lia.
    + rewrite Nm in Nf. discriminate.
    + left. split; congruence.
    + right. split; congruence.
    + rewrite Nm in Nf. discriminate.
Qed.

(** X7. Whatever the payload, a run that reaches line 47 has dropped
    exactly the header row: the final table has one row less than the
    payload, and its rows keep the labels 1, 2, ... they had in the
    payload. *)
Theorem row_count_of_any_run (data : list (list string))
    (final : DataFrame) :
  transform data = Ok final ->
  length (values final) = length data - 1 /\
  index final = seq 1 (length data - 1).
Proof.
  intros E. apply transform_Ok in E as [sh [t [Esh [Et [Edrop _]]]]].
  pose proof (shaper_rows_fit _ _ Esh) as Hfit.
  destruct (shaper_Ok _ _ Esh)
    as [header [rows [-> [_ [_ [_ [Hidx Hrows]]]]]]].
  destruct (add_total_Ok _ _ Hfit Et) as [_ [_ [Hidx' [Hlen' _]]]].
  destruct (drop_unneeded_Ok _ _ Edrop) as [_ [Hidx'' Hvals]].
  apply Forall2_length in Hrows.
  assert (Hl : length (header :: rows) - 1 = length rows) by (simpl; lia).
  rewrite Hl. split.
  - rewrite Hvals, length_map. congruence.
  - congruence.
Qed.


(** X9. Whatever the payload, the columns of the table that reaches line
    47 are the renamed header columns in their order, without the three
    dropped ones, and [pop_under5] comes last unless the payload already
    had a column of that name, which then keeps its place and holds the
    totals. *)
Theorem columns_of_any_run (header : list string)
    (rows : list (list string)) (final : DataFrame) :
  transform (header :: rows) = Ok final ->
  columns final
  = filter (fun c => negb (mem c unneeded))
           (map renamed header
            ++ (if mem pop_under5 (map renamed header)
                then [] else [pop_under5])).
Proof.
  intros E. apply transform_Ok in E as [sh [t [Esh [Et [Edrop _]]]]].
  destruct (shaper_Ok _ _ Esh)
    as [header' [rows' [[= <- <-] [_ [Hcols _]]]]].
  destruct (drop_unneeded_Ok _ _ Edrop) as [Hfinal _].
  now rewrite Hfinal, select_filter, (add_total_columns _ _ Et), Hcols.
Qed.

(** X12. Whatever the payload, a run that reaches line 47 passes the
    geography cells through untouched: the cell of a data row under a
    column other than the first two, that is not dropped and not named
    [pop_under5], is in the final table the very string of the payload,
    in the same row and under the same name. *)
Theorem geography_cells_unchanged (header : list string)
    (rows : list (list string)) (final : DataFrame)
    (i j : nat) (row : list string) (frow : list value) (g s : string) :
  transform (header :: rows) = Ok final ->
  nth_error rows i = Some row ->
  nth_error (values final) i = Some frow ->
  2 <= j ->
  nth_error header j = Some g ->
  nth_error row j = Some s ->
  mem (renamed g) unneeded = false ->
  g <> "pop_under5" ->
  cell final frow (renamed g) = Some (VStr s).
Proof.
  intros E Hrow Hfrow Hj Hg Hs Hkept Hpop.
  destruct (transform_rows _ _ _ E)
    as [sh [t [_ [_ [Edrop [Hcols [Hd Hrows]]]]]]].
  destruct (Hrows i row Hrow)
    as [srow [before [_ [_ [Hf [_ [Lbefore [Hconv [_ Hkeep]]]]]]]]].
  assert (frow = select (map (fun c => negb (mem c unneeded)) (columns t))
                        before) by congruence.
  subst frow.
  rewrite (drop_unneeded_cell _ _ _ _ Edrop Lbefore Hkept).
  rewrite Hkeep.
  - unfold cell.
    rewrite (position_nth (columns sh) j (renamed g) Hd)
      by now rewrite Hcols, nth_error_map, Hg.
    destruct (Hconv j s Hs) as [v [Hv Hc]]. unfold converted in Hc.
    replace (Nat.ltb j 2) with false in Hc
      by (symmetry; apply Nat.ltb_ge; lia).
    now subst v.
  - intros Hr. apply renamed_inv in Hr as [[_ Hx]|[[_ Hx]| ->]];
      [discriminate | discriminate | congruence].
Qed.

(** X10. The file determines the table: two tables whose files hold the
    same text have the same column names and, row by row, the same cell
    texts, whatever commas, quotes or line breaks the cells hold. *)
Theorem csv_text_determines_records (df1 df2 : DataFrame) :
  csv_text df1 = csv_text df2 ->
  map label_text (columns df1) = map label_text (columns df2) /\
  map (map value_text) (values df1) = map (map value_text) (values df2).
Proof.
  intros E. apply (f_equal Csv.read) in E. unfold csv_text in E.
  rewrite !CsvFacts.read_writerows in E. now injection E.
Qed.

End Edges.

(** ** The output path, for any working directory *)

Module PathFacts.
Import Posix.

Lemma join2_data (cwd : string) :
  join2 cwd "data"
  = ((cwd ++ (if (String.eqb cwd EmptyString || endswith_sep cwd)%bool
              then EmptyString else "/")) ++ "data")%string.
Proof.
  unfold join2. cbn [startswith_sep]. change (Ascii.eqb "d" sep) with false.
  cbv iota.
  destruct (String.eqb cwd EmptyString || endswith_sep cwd)%bool.
  - now rewrite CsvFacts.append_nil_r.
  - now rewrite CsvFacts.append_assoc.
Qed.

Lemma join2_file (a : string) :
  join2 (a ++ "data") "acs_ward_under5_pop.csv"
  = (a ++ "data/acs_ward_under5_pop.csv")%string.
Proof.
  unfold join2. cbn [startswith_sep]. change (Ascii.eqb "a" sep) with false.
  cbv iota.
  rewrite PosixFacts.endswith_sep_append by discriminate.
  change (endswith_sep "data") with false.
  replace (String.eqb (a ++ "data") EmptyString) with false
    by now destruct a.
  cbn [orb]. now rewrite CsvFacts.append_assoc.
Qed.

Lemma dirname_file (a : string) :
  dirname (a ++ "data/acs_ward_under5_pop.csv") = (a ++ "data")%string.
Proof.
  unfold dirname.
  change (a ++ "data/acs_ward_under5_pop.csv")%string
    with (a ++ "data" ++ String sep "acs_ward_under5_pop.csv")%string.
  rewrite <- CsvFacts.append_assoc, PosixFacts.head_upto_sep_append.
  change (head_upto_sep "acs_ward_under5_pop.csv") with EmptyString.
  rewrite CsvFacts.append_assoc.
  rewrite (PosixFacts.rstrip_sep_append a) by discriminate.
  change (rstrip_sep ("data" ++ String sep EmptyString)) with "data".
  now destruct a.
Qed.

(** X11. For every working directory, line 47 writes to
    [data/acs_ward_under5_pop.csv] under it, with one separator between
    the directory and [data] unless the directory is empty or ends with a
    separator already, as the root does; and the directory that must
    exist for the write is [data] under the working directory. *)
Theorem output_path_cases (cwd : string) :
  let joint := if (String.eqb cwd EmptyString || endswith_sep cwd)%bool
               then EmptyString else "/" in
  output_path cwd
  = ((cwd ++ joint) ++ "data/acs_ward_under5_pop.csv")%string /\
  dirname (output_path cwd) = path_join cwd ["data"].
Proof.
  intros joint. unfold output_path, path_join. cbn [fold_left].
  rewrite join2_data. fold joint. rewrite join2_file.
  split; [reflexivity | apply dirname_file].
Qed.

End PathFacts.

Section Directory.
Context `{Numeric}.

(** X13. When lines 24-44 produced the final table but the working
    directory holds no directory [data], line 47 raises [OSError]: the
    script creates no directory, and writes nothing. *)
Theorem missing_directory_OSError (cwd : string) (response : Response)
    (fs : Posix.filesystem) (final : DataFrame) :
  final_table response = Ok final ->
  Posix.is_dir fs (Posix.path_join cwd ["data"]) = false ->
  main cwd response fs = (Raise OSError, fs).
Proof.
  intros Hfinal Hdir. unfold main, writer, to_csv. rewrite Hfinal.
  destruct (PathFacts.output_path_cases cwd) as [_ Hparent].
  now rewrite Hparent, Hdir.
Qed.

End Directory.

(** ** The further properties at work *)


Lemma rerun_changes_nothing_witness :
  main "/home/user" (mkResponse 200 (Some fixture)) empty_fs
  = (Ok tt,
     snd (main "/home/user" (mkResponse 200 (Some fixture)) empty_fs)) /\
  main "/home/user" (mkResponse 200 (Some fixture))
       (snd (main "/home/user" (mkResponse 200 (Some fixture)) empty_fs))
  = (Ok tt,
     snd (main "/home/user" (mkResponse 200 (Some fixture)) empty_fs)).
Proof.
  split; [reflexivity|].
  apply (rerun_changes_nothing "/home/user"
           (mkResponse 200 (Some fixture)) empty_fs).
  reflexivity.
Defined.

Lemma empty_payload_IndexError_witness :
  status_code (mkResponse 200 (Some [])) = 200%Z /\
  content (mkResponse 200 (Some [])) = Some [] /\
  to_dataframe [] = Raise IndexError /\
  main "/home/user" (mkResponse 200 (Some [])) empty_fs
  = (Raise IndexError, empty_fs).
Proof.
  split; [reflexivity|]. split; [reflexivity|].
  apply (empty_payload_IndexError "/home/user" (mkResponse 200 (Some []))
           empty_fs); reflexivity.
Defined.

Lemma missing_state_KeyError_witness :
  let header := ["B01001_003E"; "B01001_027E"; "state_leg_district"] in
  let rows := [["10"; "20"; "001"]; ["5"; "7"; "002"]] in
  status_code (mkResponse 200 (Some (header :: rows))) = 200%Z /\
  content (mkResponse 200 (Some (header :: rows))) = Some (header :: rows) /\
  (exists t, (df <- shaper (header :: rows) ;; add_total df) = Ok t) /\
  ~ In "state" header /\
  transform (header :: rows) = Raise KeyError /\
  main "/home/user" (mkResponse 200 (Some (header :: rows))) empty_fs
  = (Raise KeyError, empty_fs).
Proof.
  intros header rows.
  assert (Hstate : ~ In "state" header)
    by (intros [E|[E|[E|[]]]]; discriminate E).
  assert (Ht : exists t, (df <- shaper (header :: rows) ;; add_total df)
                         = Ok t)
    by (eexists; reflexivity).
  split; [reflexivity|]. split; [reflexivity|]. split; [exact Ht|].
  split; [exact Hstate|].
  apply (missing_state_KeyError "/home/user"
           (mkResponse 200 (Some (header :: rows))) empty_fs header rows
           eq_refl eq_refl Ht Hstate).
Defined.

Lemma missing_variable_KeyError_witness :
  let header := ["B01001_003E"; "B01001_026E"; "state_leg_district"; "state"] in
  let rows := [["10"; "20"; "001"; "11"]] in
  status_code (mkResponse 200 (Some (header :: rows))) = 200%Z /\
  content (mkResponse 200 (Some (header :: rows))) = Some (header :: rows) /\
  (exists sh, shaper (header :: rows) = Ok sh) /\
  ((~ In "B01001_003E" header /\ ~ In "pop_under5_male" header) \/
   (~ In "B01001_027E" header /\ ~ In "pop_under5_female" header)) /\
  transform (header :: rows) = Raise KeyError /\
  main "/home/user" (mkResponse 200 (Some (header :: rows))) empty_fs
  = (Raise KeyError, empty_fs).
Proof.
  intros header rows.
  assert (Hsh : exists sh, shaper (header :: rows) = Ok sh)
    by (eexists; reflexivity).
  assert (Hmiss :
    (~ In "B01001_003E" header /\ ~ In "pop_under5_male" header) \/
    (~ In "B01001_027E" header /\ ~ In "pop_under5_female" header)).
  { right. split; intros [E|[E|[E|[E|[]]]]]; discriminate E. }
  split; [reflexivity|]. split; [reflexivity|]. split; [exact Hsh|].
  split; [exact Hmiss|].
  apply (missing_variable_KeyError "/home/user"
           (mkResponse 200 (Some (header :: rows))) empty_fs header rows
           eq_refl eq_refl Hsh Hmiss).
Defined.

Lemma counts_are_first_two_columns_witness :
  transform (hd [] fixture :: tl fixture) = Ok fixture_table /\
  tl fixture <> [] /\
  exists h0 h1 geo,
    hd [] fixture = h0 :: h1 :: geo /\
    ((renamed h0 = LStr "pop_under5_male" /\
      renamed h1 = LStr "pop_under5_female") \/
     (renamed h0 = LStr "pop_under5_female" /\
      renamed h1 = LStr "pop_under5_male")).
Proof.
  split; [reflexivity|]. split; [discriminate|].
  apply (counts_are_first_two_columns (hd [] fixture) (tl fixture)
           fixture_table); [reflexivity | discriminate].
Defined.

Lemma row_count_of_any_run_witness :
  transform fixture = Ok fixture_table /\
  length (values fixture_table) = length fixture - 1 /\
  index fixture_table = seq 1 (length fixture - 1).
Proof.
  split; [reflexivity|].
  apply (row_count_of_any_run fixture fixture_table). reflexivity.
Defined.


Lemma columns_of_any_run_witness :
  transform (hd [] fixture :: tl fixture) = Ok fixture_table /\
  columns fixture_table
  = filter (fun c => negb (mem c unneeded))
           (map renamed (hd [] fixture)
            ++ (if mem (LStr "pop_under5") (map renamed (hd [] fixture))
                then [] else [LStr "pop_under5"])).
Proof.
  split; [reflexivity|].
  apply (columns_of_any_run (hd [] fixture) (tl fixture) fixture_table).
  reflexivity.
Defined.

Lemma geography_cells_unchanged_witness :
  transform (hd [] fixture :: tl fixture) = Ok fixture_table /\
  nth_error (tl fixture) 0 = Some ["10"; "20"; "001"; "11"] /\
  nth_error (values fixture_table) 0 = Some [VStr "001"; @VNum Int64_Numeric 30%Z] /\
  2 <= 2 /\
  nth_error (hd [] fixture) 2 = Some "state_leg_district" /\
  nth_error ["10"; "20"; "001"; "11"] 2 = Some "001" /\
  mem (renamed "state_leg_district") unneeded = false /\
  "state_leg_district" <> "pop_under5" /\
  cell fixture_table [VStr "001"; @VNum Int64_Numeric 30%Z] (renamed "state_leg_district")
  = Some (VStr "001").
Proof.
  repeat (split; [first [reflexivity | discriminate | lia]|]).
  apply (geography_cells_unchanged (hd [] fixture) (tl fixture)
           fixture_table 0 2 ["10"; "20"; "001"; "11"]
           [VStr "001"; @VNum Int64_Numeric 30%Z] "state_leg_district" "001");
    first [reflexivity | discriminate | lia].
Defined.

Lemma csv_text_determines_records_witness :
  let relabelled :=
    {| columns := columns fixture_table; index := [7; 9];
       values := values fixture_table |} in
  csv_text fixture_table = csv_text relabelled /\
  map label_text (columns fixture_table)
  = map label_text (columns relabelled) /\
  map (map value_text) (values fixture_table)
  = map (map value_text) (values relabelled).
Proof.
  intros relabelled. split; [reflexivity|].
  apply (csv_text_determines_records fixture_table relabelled). reflexivity.
Defined.

Lemma missing_directory_OSError_witness :
  let bare := {| Posix.is_dir := fun _ => false; Posix.files := [] |} in
  final_table (mkResponse 200 (Some fixture)) = Ok fixture_table /\
  Posix.is_dir bare (Posix.path_join "/home/user" ["data"]) = false /\
  main "/home/user" (mkResponse 200 (Some fixture)) bare
  = (Raise OSError, bare).
Proof.
  intros bare. split; [reflexivity|]. split; [reflexivity|].
  apply (missing_directory_OSError "/home/user"
           (mkResponse 200 (Some fixture)) bare fixture_table);
    reflexivity.
Defined.
